(** * Nearest-neighbour report of broad/find_similar_preds.py

    A shallow embedding of [find_similar_preds]: the distance matrices, the
    per-molecule neighbour selection, the ordered dictionary built for every
    test molecule, the final sort by prediction and the CSV writer calls.

    Floating-point numbers and the routines of numpy, scipy and chemprop that
    compute with them are parameters of the development (classes [NumLib] and
    [Chemprop]); the control flow, the indexing, the exceptions and the order
    of the external calls are those of the script. *)

From Stdlib Require Import List String Ascii ZArith Lia Bool Arith.
From Stdlib Require Import Permutation Sorted.
From Stdlib Require Import DecimalString DecimalNat DecimalZ.
From Stdlib Require PrimFloat Uint63.
Import ListNotations.
Local Open Scope string_scope.
Local Open Scope list_scope.

(** ** Exceptions and results *)

Inductive exn : Type :=
| ValueError (msg : string)
| IndexError (msg : string)
| KeyError (key : string)
| TypeError (msg : string).

Inductive result (A : Type) : Type :=
| Ok (a : A)
| Raise (e : exn).
Arguments Ok {A} a.
Arguments Raise {A} e.

Definition rbind {A B} (r : result A) (k : A -> result B) : result B :=
  match r with
  | Ok a => k a
  | Raise e => Raise e
  end.

Declare Scope result_scope.
Delimit Scope result_scope with result.
Notation "x <- c ;; k" := (rbind c (fun x => k))
  (at level 61, c at next level, right associativity) : result_scope.

Fixpoint mapM {A B} (f : A -> result B) (l : list A) : result (list B) :=
  match l with
  | [] => Ok []
  | a :: l' =>
      (b <- f a ;;
       bs <- mapM f l' ;;
       Ok (b :: bs))%result
  end.

(** [l[i]] on a Python list or a one-dimensional array, for an index that is
    not negative: IndexError when it is out of range. *)
Definition index {A} (l : list A) (i : nat) : result A :=
  match nth_error l i with
  | Some a => Ok a
  | None => Raise (IndexError "index out of range")
  end.

(** [l[:k]] for a Python integer [k]: the first [k] elements, and for a
    negative [k] all but the last [-k]. *)
Definition slice_to {A} (l : list A) (k : Z) : list A :=
  if (0 <=? k)%Z then firstn (Z.to_nat k) l
  else firstn (List.length l - Z.to_nat (- k)) l.

(** ** The libraries *)

(** numpy and scipy: the type of floating-point numbers, their [<], the mean
    of a one-dimensional array, [np.argsort] with its default [kind], and the
    two metrics [cdist] is called with. *)
Class NumLib : Type := {
  float : Type;
  lt : float -> float -> bool;
  np_mean : list float -> float;
  np_argsort : list float -> list nat;
  jaccard : list float -> list float -> float;
  cosine : list float -> list float -> float
}.

(** chemprop: the fingerprint, the prediction vector and the molecule vector
    of a molecule given by its SMILES string (the model of the checkpoint is
    fixed). *)
Class Chemprop (N : NumLib) : Type := {
  morgan_fingerprint : string -> list float;
  predict : string -> list float;
  compute_molecule_vectors : string -> list float
}.

(** ** Values and ordered dictionaries *)

Inductive value {N : NumLib} : Type :=
| VStr (s : string)
| VBool (b : bool)
| VFloat (x : float).

Section OrderedDict.
Context {V : Type}.

(** An OrderedDict with string keys: the items in insertion order. *)
Definition odict : Type := list (string * V).

(** [d[k] = v]: a key already there keeps its place. *)
Fixpoint od_set (d : odict) (k : string) (v : V) : odict :=
  match d with
  | [] => [(k, v)]
  | (k', v') :: d' =>
      if String.eqb k k' then (k, v) :: d' else (k', v') :: od_set d' k v
  end.

Fixpoint od_find (d : odict) (k : string) : option V :=
  match d with
  | [] => None
  | (k', v') :: d' => if String.eqb k k' then Some v' else od_find d' k
  end.

(** [d[k]] *)
Definition od_get (d : odict) (k : string) : result V :=
  match od_find d k with
  | Some v => Ok v
  | None => Raise (KeyError k)
  end.

Definition od_keys (d : odict) : list string := map fst d.
End OrderedDict.
Arguments odict V : clear implicits.

(** ** Sorting primitives *)

Section Insertion.
Context {A : Type} (before : A -> A -> bool).

(** Insertion of [x] in front of the first element it goes before. *)
Fixpoint insert (x : A) (l : list A) : list A :=
  match l with
  | [] => [x]
  | y :: l' => if before x y then x :: y :: l' else y :: insert x l'
  end.

(** Every element is inserted in the sorted rest of the list, so an element
    meets only elements that came after it in the input. *)
Definition insertion_sort (l : list A) : list A := fold_right insert [] l.
End Insertion.

(** [list.sort(key=..., reverse=True)] on items decorated with their keys:
    descending and stable; an item goes before a later one unless its key is
    smaller ([<] is the only comparison the sort uses). *)
Definition sort_reverse {K B : Type} (ltK : K -> K -> bool)
    (l : list (K * B)) : list (K * B) :=
  insertion_sort (fun x y => negb (ltK (fst x) (fst y))) l.

(** A stable index sort: the indices of [row] in ascending order of the
    entries, equal entries in index order. *)
Definition argsort_stable {K : Type} (ltK : K -> K -> bool)
    (row : list K) : list nat :=
  map snd (insertion_sort (fun x y => negb (ltK (fst y) (fst x)))
             (combine row (seq 0 (List.length row)))).

(** ** The default kind of [np.argsort]

    numpy's default kind is its quicksort, an introsort that works in place
    on the array of indices [tosort] and reads the entries through it: a
    range of more than sixteen indices is partitioned around the median of
    its first, middle and last entries and the larger part is put aside; a
    shorter range is sorted by insertion; a part that is taken up again
    after more than twice [log2] of the length partitions is sorted by
    heapsort. Positions in [tosort] are natural numbers; [v i] is the entry
    of the row at index [i]. *)

Section Aquicksort.
Context {K : Type} (ltK : K -> K -> bool) (v : nat -> K).

Definition SMALL_QUICKSORT : nat := 16.

Fixpoint upd (a : list nat) (p x : nat) : list nat :=
  match a, p with
  | [], _ => []
  | _ :: a', 0 => x :: a'
  | y :: a', S p' => y :: upd a' p' x
  end.

(** The index at place [p] of [tosort] and the entry of the row it names. *)
Definition deref (a : list nat) (p : nat) : nat := nth p a 0.
Definition entry_at (a : list nat) (p : nat) : K := v (deref a p).

(** The indices at the places [p] and [q] change places. *)
Definition swap (a : list nat) (p q : nat) : list nat :=
  upd (upd a p (deref a q)) q (deref a p).

Definition median3 (a : list nat) (pl pm pr : nat) : list nat :=
  let a := if ltK (entry_at a pm) (entry_at a pl) then swap a pm pl else a in
  let a := if ltK (entry_at a pr) (entry_at a pm) then swap a pr pm else a in
  if ltK (entry_at a pm) (entry_at a pl) then swap a pm pl else a.

(** The scan to the right: [pi] goes up while the entry it names is less
    than the pivot. *)
Fixpoint scan_up (fuel : nat) (a : list nat) (vp : K) (pi : nat) : nat :=
  match fuel with
  | 0 => pi
  | S f => if ltK (entry_at a pi) vp then scan_up f a vp (S pi) else pi
  end.

(** The scan to the left: [pj] goes down while the pivot is less than the
    entry it names. *)
Fixpoint scan_down (fuel : nat) (a : list nat) (vp : K) (pj : nat) : nat :=
  match fuel with
  | 0 => pj
  | S f => if ltK vp (entry_at a pj) then scan_down f a vp (pj - 1) else pj
  end.

Fixpoint partition_loop (fuel : nat) (a : list nat) (vp : K) (pi pj : nat)
    : list nat * nat :=
  match fuel with
  | 0 => (a, pi)
  | S f =>
      let pi := scan_up (List.length a) a vp (S pi) in
      let pj := scan_down (List.length a) a vp (pj - 1) in
      if Nat.leb pj pi then (a, pi)
      else partition_loop f (swap a pi pj) vp pi pj
  end.

(** The partition of the range [pl .. pr]: the new array and the place of
    the pivot. *)
Definition partition (a : list nat) (pl pr : nat) : list nat * nat :=
  let pm := pl + Nat.div2 (pr - pl) in
  let a := median3 a pl pm pr in
  let vp := entry_at a pm in
  let a := swap a pm (pr - 1) in
  let (a, pi) := partition_loop (List.length a) a vp pl (pr - 1) in
  (swap a pi (pr - 1), pi).

Fixpoint ins_shift (fuel : nat) (a : list nat) (pl : nat) (vp : K) (pj : nat)
    : list nat * nat :=
  match fuel with
  | 0 => (a, pj)
  | S f =>
      if Nat.ltb pl pj && ltK vp (entry_at a (pj - 1))
      then ins_shift f (upd a pj (deref a (pj - 1))) pl vp (pj - 1)
      else (a, pj)
  end.

Definition ins_one (pl : nat) (a : list nat) (pi : nat) : list nat :=
  let vi := deref a pi in
  let (a, pj) := ins_shift (List.length a) a pl (v vi) pi in
  upd a pj vi.

(** The insertion sort of the range [pl .. pr]. *)
Definition insertion_range (a : list nat) (pl pr : nat) : list nat :=
  fold_left (ins_one pl) (seq (pl + 1) (pr - pl)) a.

(** The heap on the range that starts at [pl], with positions from 1. *)
Definition heap_at (a : list nat) (pl k : nat) : nat := deref a (pl + k - 1).
Definition heap_upd (a : list nat) (pl k x : nat) : list nat :=
  upd a (pl + k - 1) x.

Fixpoint sift (fuel : nat) (a : list nat) (pl tmp i j n : nat) : list nat :=
  match fuel with
  | 0 => heap_upd a pl i tmp
  | S f =>
      if Nat.ltb n j then heap_upd a pl i tmp
      else
        let j :=
          if Nat.ltb j n && ltK (v (heap_at a pl j)) (v (heap_at a pl (j + 1)))
          then j + 1 else j in
        if ltK (v tmp) (v (heap_at a pl j))
        then sift f (heap_upd a pl i (heap_at a pl j)) pl tmp j (j + j) n
        else heap_upd a pl i tmp
  end.

Definition aheapsort (a : list nat) (pl n : nat) : list nat :=
  let a :=
    fold_left (fun a l => sift n a pl (heap_at a pl l) l (l + l) n)
      (rev (seq 1 (Nat.div2 n))) a in
  fold_left
    (fun a m =>
       let tmp := heap_at a pl m in
       let a := heap_upd a pl m (heap_at a pl 1) in
       sift n a pl tmp 1 2 (m - 1))
    (rev (seq 2 (n - 1))) a.

(** The range [pl .. pr] with the depth left; [popped] tells a part that was
    put aside, for which the depth is checked, from the part the partition
    loop goes on with. *)
Fixpoint aquicksort (fuel : nat) (popped : bool) (a : list nat) (pl pr : nat)
    (cdepth : Z) : list nat :=
  match fuel with
  | 0 => a
  | S f =>
      if popped && (cdepth <? 0)%Z then aheapsort a pl (pr - pl + 1)
      else if Nat.ltb SMALL_QUICKSORT (pr - pl + 1) then
        let (a, pi) := partition a pl pr in
        let cdepth := (cdepth - 1)%Z in
        if Nat.ltb (pi - pl) (pr - pi) then
          aquicksort f true (aquicksort f false a pl (pi - 1) cdepth)
            (pi + 1) pr cdepth
        else
          aquicksort f true (aquicksort f false a (pi + 1) pr cdepth)
            pl (pi - 1) cdepth
      else insertion_range a pl pr
  end.
End Aquicksort.

Definition npy_argsort {K : Type} (ltK : K -> K -> bool) (row : list K)
    : list nat :=
  match row with
  | [] => []
  | x :: _ =>
      let num := List.length row in
      aquicksort ltK (fun i => nth i row x) num true (seq 0 num) 0 (num - 1)
        (2 * Z.log2 (Z.of_nat num))
  end.

(** ** The script *)

Definition dquote : string := String "034"%char EmptyString.

(** [f'{k}'] for an integer and for an index. *)
Definition str_of_int (k : Z) : string := NilZero.string_of_int (Z.to_int k).
Definition str_of_nat (n : nat) : string :=
  NilZero.string_of_uint (Nat.to_uint n).

Definition key_avg_vec (k : Z) : string :=
  "train_" ++ str_of_int k ++ "_avg_vec_cosine_dist".
Definition key_avg_morgan (k : Z) : string :=
  "train_" ++ str_of_int k ++ "_avg_morgan_jaccard_dist".
Definition key_train_smiles (i : nat) : string :=
  "train_smiles_" ++ str_of_nat i.
Definition key_train_is_antibiotic (i : nat) : string :=
  "train_is_antibiotic_" ++ str_of_nat i.
Definition key_train_vec_dist (i : nat) : string :=
  "train_vec_cosine_dist_" ++ str_of_nat i.
Definition key_train_morgan_dist (i : nat) : string :=
  "train_morgan_jaccard_dist_" ++ str_of_nat i.

(** The four keys of the training molecule of rank [i]. *)
Definition train_keys (i : nat) : list string :=
  [key_train_smiles i; key_train_is_antibiotic i; key_train_vec_dist i;
   key_train_morgan_dist i].

(** [x in s] for a set of strings. *)
Definition mem (x : string) (s : list string) : bool :=
  existsb (String.eqb x) s.

(** [enumerate(l)] *)
Definition enumerate {A} (l : list A) : list (nat * A) :=
  combine (seq 0 (List.length l)) l.

Fixpoint foldM {A B} (f : B -> A -> result B) (l : list A) (b : B)
    : result B :=
  match l with
  | [] => Ok b
  | a :: l' => (b' <- f b a ;; foldM f l' b')%result
  end.

Inductive metric : Type := Jaccard | Cosine.

Section Script.
Context {N : NumLib} {C : Chemprop N}.

Definition matrix : Type := list (list float).

(** The calls the script makes to the outside, in order. *)
Inductive event : Type :=
| EPrint (msg : string)
| ECdist (m : metric)
| EOpen (path : string)
| EWriteHeader (fieldnames : list string)
| EWriteRow (rowdict : odict value).

(** A computation: the calls made so far and a value or an exception. *)
Definition M (A : Type) : Type := (list event * result A)%type.

Definition ret {A} (a : A) : M A := ([], Ok a).

Definition bind {A B} (m : M A) (k : A -> M B) : M B :=
  match m with
  | (t, Ok a) => let (t', r) := k a in (t ++ t', r)
  | (t, Raise e) => (t, Raise e)
  end.

Definition emit (e : event) : M unit := ([e], Ok tt).

Definition lift {A} (r : result A) : M A := ([], r).

Definition print (msg : string) : M unit := emit (EPrint msg).

Fixpoint forM_ {A} (l : list A) (f : A -> M unit) : M unit :=
  match l with
  | [] => ret tt
  | a :: l' => bind (f a) (fun _ => forM_ l' f)
  end.

(** The shape of [np.array(rows)] when it is two-dimensional: at least one
    row, all rows of one length. The array of an empty list has one
    dimension, and rows of different lengths do not make a two-dimensional
    array either. *)
Definition shape2 (X : matrix) : option (nat * nat) :=
  match X with
  | [] => None
  | r :: rs =>
      if forallb (fun r' => Nat.eqb (List.length r') (List.length r)) rs
      then Some (List.length X, List.length r)
      else None
  end.

Definition metric_fun (m : metric) : list float -> list float -> float :=
  match m with
  | Jaccard => jaccard
  | Cosine => cosine
  end.

(** [scipy.spatial.distance.cdist]: both arguments must be two-dimensional
    with the same number of columns; entry [(i, j)] of the result is the
    distance between row [i] of [XA] and row [j] of [XB]. *)
Definition cdist (XA XB : matrix) (m : metric) : result matrix :=
  match shape2 XA with
  | None => Raise (ValueError "XA must be a 2-dimensional array.")
  | Some (_, dA) =>
      match shape2 XB with
      | None => Raise (ValueError "XB must be a 2-dimensional array.")
      | Some (_, dB) =>
          if Nat.eqb dA dB
          then Ok (map (fun u => map (fun v => metric_fun m u v) XB) XA)
          else Raise (ValueError
            "XA and XB must have the same number of columns (i.e. feature dimension.)")
      end
  end.

Definition call_cdist (XA XB : matrix) (m : metric) : M matrix :=
  bind (emit (ECdist m)) (fun _ => lift (cdist XA XB m)).

(** [a[idx]] for a one-dimensional array and an array of indices. *)
Definition take (a : list float) (idx : list nat) : result (list float) :=
  mapM (index a) idx.

(** Line 64. *)
Definition nearest_train (row : list float) (num_neighbors : Z) : list nat :=
  slice_to (np_argsort row) num_neighbors.

(** The variables of [find_similar_preds] that the neighbour loop reads. *)
Record locals : Type := {
  test_smiles : list string;
  train_smiles : list string;
  antibiotics : list string;
  test_preds : matrix;
  test_train_morgan_dist : matrix;
  test_train_vec_dist : matrix;
  dist_matrix : matrix;
  num_neighbors : Z
}.

(** Lines 78-82: the four fields of the training molecule of rank [i]. *)
Definition add_train_fields (L : locals)
    (nearest_train_vec_dists nearest_train_morgan_dists : list float)
    (neighbor : odict value) (it : nat * nat) : result (odict value) :=
  let (i, train_index) := it in
  (s <- index (train_smiles L) train_index ;;
   let neighbor := od_set neighbor (key_train_smiles (i + 1)) (VStr s) in
   s' <- index (train_smiles L) train_index ;;
   let neighbor :=
     od_set neighbor (key_train_is_antibiotic (i + 1))
       (VBool (mem s' (antibiotics L))) in
   v <- index nearest_train_vec_dists i ;;
   let neighbor := od_set neighbor (key_train_vec_dist (i + 1)) (VFloat v) in
   m <- index nearest_train_morgan_dists i ;;
   Ok (od_set neighbor (key_train_morgan_dist (i + 1)) (VFloat m)))%result.

(** Lines 63-82: the dictionary of the test molecule [test_index]. *)
Definition neighbor_of (L : locals) (test_index : nat)
    : result (odict value) :=
  (row <- index (dist_matrix L) test_index ;;
   let nearest_train := nearest_train row (num_neighbors L) in
   vec_row <- index (test_train_vec_dist L) test_index ;;
   nearest_train_vec_dists <- take vec_row nearest_train ;;
   morgan_row <- index (test_train_morgan_dist L) test_index ;;
   nearest_train_morgan_dists <- take morgan_row nearest_train ;;
   smiles <- index (test_smiles L) test_index ;;
   let neighbor := od_set [] "test_smiles" (VStr smiles) in
   smiles' <- index (test_smiles L) test_index ;;
   let neighbor :=
     od_set neighbor "in_train" (VBool (mem smiles' (train_smiles L))) in
   preds <- index (test_preds L) test_index ;;
   pred <- index preds 0 ;;
   let neighbor := od_set neighbor "test_pred" (VFloat pred) in
   let neighbor :=
     od_set neighbor (key_avg_vec (num_neighbors L))
       (VFloat (np_mean nearest_train_vec_dists)) in
   let neighbor :=
     od_set neighbor (key_avg_morgan (num_neighbors L))
       (VFloat (np_mean nearest_train_morgan_dists)) in
   foldM (add_train_fields L nearest_train_vec_dists
            nearest_train_morgan_dists)
     (enumerate nearest_train) neighbor)%result.

(** Lines 61-84: one dictionary per test molecule, in the order of the
    test set. *)
Definition find_neighbors (L : locals) (len_test_data : nat)
    : result (list (odict value)) :=
  mapM (neighbor_of L) (seq 0 len_test_data).

(** The sort key of line 87; it is a float in every dictionary the loop
    builds. *)
Definition test_pred_of (neighbor : odict value) : result float :=
  (v <- od_get neighbor "test_pred" ;;
   match v with
   | VFloat x => Ok x
   | _ => Raise (TypeError "test_pred is not a float")
   end)%result.

(** Line 87: the keys are computed first, then the list is sorted. *)
Definition sort_by_test_pred (neighbors : list (odict value))
    : result (list (odict value)) :=
  (keys <- mapM test_pred_of neighbors ;;
   Ok (map snd (sort_reverse lt (combine keys neighbors))))%result.

(** Lines 53-58. *)
Definition select_dist_matrix (distance_measure : string)
    (vec_dist morgan_dist : matrix) : result matrix :=
  if String.eqb distance_measure "vec" then Ok vec_dist
  else if String.eqb distance_measure "morgan" then Ok morgan_dist
  else Raise (ValueError ("Distance measure " ++ dquote ++ distance_measure
                          ++ dquote ++ " not supported.")).

(** [csv.DictWriter.writerow]: a dictionary with a key that is not a field
    name is refused. *)
Definition writerow (fieldnames : list string) (rowdict : odict value)
    : M unit :=
  if forallb (fun k => mem k fieldnames) (od_keys rowdict)
  then emit (EWriteRow rowdict)
  else lift (Raise (ValueError "dict contains fields not in fieldnames")).

(** Lines 89-94. *)
Definition save (save_path : string) (neighbors : list (odict value))
    : M unit :=
  bind (print "Saving distances") (fun _ =>
  bind (emit (EOpen save_path)) (fun _ =>
  bind (lift (index neighbors 0)) (fun first =>
  let fieldnames := od_keys first in
  bind (emit (EWriteHeader fieldnames)) (fun _ =>
  forM_ neighbors (writerow fieldnames))))).

(** [find_similar_preds]. The data sets are given by the SMILES strings
    that [get_data] and [get_smiles] load from the three paths; the
    checkpoint and the batch size only reach chemprop. *)
Definition find_similar_preds (test_data train_data antibiotics : list string)
    (distance_measure save_path : string) (num_neighbors : Z) : M unit :=
  bind (print "Loading data") (fun _ =>
  bind (print "Computing morgan fingerprints") (fun _ =>
  let test_morgans := map morgan_fingerprint test_data in
  let train_morgans := map morgan_fingerprint train_data in
  bind (print "Loading model") (fun _ =>
  bind (print "Predicting") (fun _ =>
  let test_preds := map predict test_data in
  bind (print "Computing molecule vectors") (fun _ =>
  let test_vecs := map compute_molecule_vectors test_data in
  let train_vecs := map compute_molecule_vectors train_data in
  bind (print "Computing distances") (fun _ =>
  bind (call_cdist test_morgans train_morgans Jaccard)
    (fun test_train_morgan_dist =>
  bind (call_cdist test_vecs train_vecs Cosine)
    (fun test_train_vec_dist =>
  bind (lift (select_dist_matrix distance_measure test_train_vec_dist
                test_train_morgan_dist)) (fun dist_matrix =>
  bind (print "Finding neighbors") (fun _ =>
  let L := {| test_smiles := test_data;
              train_smiles := train_data;
              antibiotics := antibiotics;
              test_preds := test_preds;
              test_train_morgan_dist := test_train_morgan_dist;
              test_train_vec_dist := test_train_vec_dist;
              dist_matrix := dist_matrix;
              num_neighbors := num_neighbors |} in
  bind (lift (find_neighbors L (List.length test_data))) (fun neighbors =>
  bind (lift (sort_by_test_pred neighbors)) (fun neighbors =>
  save save_path neighbors)))))))))))).

(** The rows handed to the writer, in order. *)
Definition written (t : list event) : list (odict value) :=
  flat_map (fun e => match e with EWriteRow d => [d] | _ => [] end) t.

(** A call that touches the output file. *)
Definition file_event (e : event) : bool :=
  match e with
  | EOpen _ | EWriteHeader _ | EWriteRow _ => true
  | _ => false
  end.

End Script.

Section State.
Context {N : NumLib} {C : Chemprop N}.

(** The variables at line 60, when the two distance matrices have been
    computed and the measure is a supported one. *)
Definition locals_of (test_data train_data antibiotics : list string)
    (distance_measure : string) (num_neighbors : Z) : result locals :=
  (morgan_dist <- cdist (map morgan_fingerprint test_data)
                    (map morgan_fingerprint train_data) Jaccard ;;
   vec_dist <- cdist (map compute_molecule_vectors test_data)
                 (map compute_molecule_vectors train_data) Cosine ;;
   dist_matrix <- select_dist_matrix distance_measure vec_dist morgan_dist ;;
   Ok {| test_smiles := test_data;
         train_smiles := train_data;
         antibiotics := antibiotics;
         test_preds := map predict test_data;
         test_train_morgan_dist := morgan_dist;
         test_train_vec_dist := vec_dist;
         dist_matrix := dist_matrix;
         num_neighbors := num_neighbors |})%result.

(** Entry [(i, j)] of a matrix. *)
Definition entry (m : matrix) (i j : nat) : option float :=
  match nth_error m i with
  | Some row => nth_error row j
  | None => None
  end.

(** The four fields of rank [i] in a dictionary. *)
Definition rank_fields (d : odict value) (i : nat) (train_smiles : string)
    (is_antibiotic : bool) (vec_dist morgan_dist : float) : Prop :=
  od_find d (key_train_smiles i) = Some (VStr train_smiles) /\
  od_find d (key_train_is_antibiotic i) = Some (VBool is_antibiotic) /\
  od_find d (key_train_vec_dist i) = Some (VFloat vec_dist) /\
  od_find d (key_train_morgan_dist i) = Some (VFloat morgan_dist).

(** The dictionaries whose prediction is neither smaller nor greater than
    [s]. *)
Definition same_score (s : float) (d : odict value) : bool :=
  match test_pred_of d with
  | Ok x => negb (lt s x) && negb (lt x s)
  | Raise _ => false
  end.

(** The calls made up to the choice of the distance matrix. *)
Definition prelude : list event :=
  [EPrint "Loading data"; EPrint "Computing morgan fingerprints";
   EPrint "Loading model"; EPrint "Predicting";
   EPrint "Computing molecule vectors"; EPrint "Computing distances"].
(** The calls made before the output file is opened. *)
Definition before_save : list event :=
  prelude ++ [ECdist Jaccard; ECdist Cosine; EPrint "Finding neighbors"].

End State.

(** ** What the script relies on *)

(** [<] on the floats that occur: asymmetric, and [not <] is transitive (a
    strict weak order; this leaves NaN out). *)
Definition strict_weak_order {A : Type} (ltA : A -> A -> bool) : Prop :=
  (forall x y, ltA x y = true -> ltA y x = false) /\
  (forall x y z, ltA x y = false -> ltA y z = false -> ltA x z = false).

(** The entry at index [i] of [row] is not greater than the one at [j]. *)
Definition entry_le {N : NumLib} (row : list float) (i j : nat) : Prop :=
  forall a b, nth_error row i = Some a -> nth_error row j = Some b ->
              lt b a = false.

(** What numpy documents for [np.argsort] on a one-dimensional array: the
    result holds every index once, and reading the array in that order gives
    its entries in ascending order. Nothing is promised on the order of equal
    entries (the default [kind] is not a stable sort). *)
Definition argsort_permutes (N : NumLib) : Prop :=
  forall row, Permutation (np_argsort row) (seq 0 (List.length row)).

Definition argsort_ascending (N : NumLib) : Prop :=
  forall row, StronglySorted (entry_le row) (np_argsort row).

(** What the script needs from its inputs to reach the end: molecules in both
    sets, fingerprints of one length, vectors of one length, a prediction for
    every test molecule. *)
Definition same_length {A} (f : string -> list A) (l : list string) : Prop :=
  exists d, Forall (fun s => List.length (f s) = d) l.

Definition well_formed {N : NumLib} (C : Chemprop N)
    (test_data train_data : list string) : Prop :=
  test_data <> [] /\ train_data <> [] /\
  same_length morgan_fingerprint (test_data ++ train_data) /\
  same_length compute_molecule_vectors (test_data ++ train_data) /\
  Forall (fun s => predict s <> []) test_data.

(** ** An instance on integers

    Distances and predictions in hundredths, for running the script on small
    inputs. *)

Definition zsum (l : list Z) : Z := fold_right Z.add 0%Z l.

Definition zdot (u v : list Z) : Z :=
  zsum (map (fun p => (fst p * snd p)%Z) (combine u v)).

Definition zcount (f : Z -> Z -> bool) (u v : list Z) : Z :=
  Z.of_nat (List.length (filter (fun p => f (fst p) (snd p)) (combine u v))).

Definition zmean (l : list Z) : Z := (zsum l / Z.of_nat (List.length l))%Z.

Definition zjaccard (u v : list Z) : Z :=
  let both := zcount (fun a b => negb (a =? 0)%Z && negb (b =? 0)%Z) u v in
  let any := zcount (fun a b => negb (a =? 0)%Z || negb (b =? 0)%Z) u v in
  (100 - 100 * both / any)%Z.

Definition zcosine (u v : list Z) : Z :=
  (100 - 100 * zdot u v / Z.sqrt (zdot u u * zdot v v))%Z.

Definition Zlib : NumLib :=
  {| float := Z; lt := Z.ltb; np_mean := zmean;
     np_argsort := argsort_stable Z.ltb;
     jaccard := zjaccard; cosine := zcosine |}.

Definition demo_fingerprint (s : string) : list Z :=
  if String.eqb s "A" then [1; 0; 1; 0]%Z
  else if String.eqb s "B" then [1; 0; 0; 0]%Z
  else if String.eqb s "C" then [0; 1; 0; 1]%Z
  else [1; 1; 1; 1]%Z.

Definition demo_vector (s : string) : list Z :=
  if String.eqb s "A" then [1; 0]%Z
  else if String.eqb s "B" then [1; 0]%Z
  else if String.eqb s "C" then [0; 1]%Z
  else [1; 1]%Z.

Definition demo_predict (s : string) : list Z :=
  if String.eqb s "A" then [90]%Z
  else if String.eqb s "D" then [90; 3]%Z
  else [50; 7]%Z.

Definition demo : Chemprop Zlib :=
  {| morgan_fingerprint := demo_fingerprint : string -> list (@float Zlib);
     predict := demo_predict : string -> list (@float Zlib);
     compute_molecule_vectors := demo_vector : string -> list (@float Zlib) |}.

(** A model that predicts only the first component of [demo_predict]. *)
Definition demo_first : Chemprop Zlib :=
  {| morgan_fingerprint := demo_fingerprint : string -> list (@float Zlib);
     predict := (fun s => firstn 1 (demo_predict s))
                : string -> list (@float Zlib);
     compute_molecule_vectors := demo_vector : string -> list (@float Zlib) |}.

(** A run on four test molecules, two of them with the prediction 90 and two
    with the prediction 50, and two training molecules. *)
Definition demo_run : @M Zlib unit :=
  @find_similar_preds Zlib demo ["C"; "A"; "D"; "B"] ["B"; "C"] ["B"]
    "vec" "out.csv" 2.

(** A model with no prediction for the molecule E. *)
Definition demo_no_pred : Chemprop Zlib :=
  {| morgan_fingerprint := demo_fingerprint : string -> list (@float Zlib);
     predict := (fun s => if String.eqb s "E" then [] else demo_predict s)
                : string -> list (@float Zlib);
     compute_molecule_vectors := demo_vector : string -> list (@float Zlib) |}.

(** ** An instance on binary64 numbers

    The numbers of numpy and of Python: [<] is the comparison of IEEE 754,
    under which NaN is neither smaller nor greater than any number. *)

Module Binary64.
Import PrimFloat.
Definition quarter : float := 0.25%float.
Definition half : float := 0.5%float.
Definition three_quarters : float := 0.75%float.
End Binary64.

Definition fsum (l : list PrimFloat.float) : PrimFloat.float :=
  fold_left PrimFloat.add l PrimFloat.zero.

Definition fdot (u v : list PrimFloat.float) : PrimFloat.float :=
  fsum (map (fun p => PrimFloat.mul (fst p) (snd p)) (combine u v)).

Definition fcount (f : PrimFloat.float -> PrimFloat.float -> bool)
    (u v : list PrimFloat.float) : PrimFloat.float :=
  PrimFloat.of_uint63
    (Uint63.of_Z
       (Z.of_nat
          (List.length (filter (fun p => f (fst p) (snd p)) (combine u v))))).

Definition fnonzero (x : PrimFloat.float) : bool :=
  negb (PrimFloat.eqb x PrimFloat.zero).

(** [np.mean]: the sum divided by the number of entries, NaN for none. *)
Definition fmean (l : list PrimFloat.float) : PrimFloat.float :=
  PrimFloat.div (fsum l)
    (PrimFloat.of_uint63 (Uint63.of_Z (Z.of_nat (List.length l)))).

(** scipy's [jaccard]: among the positions where an entry is not zero, the
    share of those where the entries differ (0 when there is none). *)
Definition fjaccard (u v : list PrimFloat.float) : PrimFloat.float :=
  let differ :=
    fcount (fun a b => negb (PrimFloat.eqb a b) && (fnonzero a || fnonzero b))
      u v in
  let any := fcount (fun a b => fnonzero a || fnonzero b) u v in
  if PrimFloat.eqb any PrimFloat.zero then PrimFloat.zero
  else PrimFloat.div differ any.

(** scipy's [cosine]: one minus the cosine of the angle. *)
Definition fcosine (u v : list PrimFloat.float) : PrimFloat.float :=
  PrimFloat.sub PrimFloat.one
    (PrimFloat.div (fdot u v)
       (PrimFloat.mul (PrimFloat.sqrt (fdot u u)) (PrimFloat.sqrt (fdot v v)))).

(** The comparison of numpy's sorts, which puts NaN last. *)
Definition npy_float_lt (a b : PrimFloat.float) : bool :=
  PrimFloat.ltb a b || (negb (PrimFloat.eqb b b) && PrimFloat.eqb a a).

Definition Flib : NumLib :=
  {| float := PrimFloat.float; lt := PrimFloat.ltb; np_mean := fmean;
     np_argsort := npy_argsort npy_float_lt;
     jaccard := fjaccard; cosine := fcosine |}.

Definition fdemo_fingerprint (s : string) : list PrimFloat.float :=
  if String.eqb s "A" then
    [PrimFloat.one; PrimFloat.zero; PrimFloat.one; PrimFloat.zero]
  else if String.eqb s "B" then
    [PrimFloat.one; PrimFloat.zero; PrimFloat.zero; PrimFloat.zero]
  else if String.eqb s "C" then
    [PrimFloat.zero; PrimFloat.one; PrimFloat.zero; PrimFloat.one]
  else [PrimFloat.one; PrimFloat.one; PrimFloat.one; PrimFloat.one].

Definition fdemo_vector (s : string) : list PrimFloat.float :=
  if String.eqb s "A" then [PrimFloat.one; Binary64.half]
  else if String.eqb s "B" then [PrimFloat.one; PrimFloat.zero]
  else if String.eqb s "C" then [Binary64.quarter; PrimFloat.one]
  else [PrimFloat.one; PrimFloat.one].

(** Predictions of which none is NaN, but for the molecule E. *)
Definition fdemo_predict (s : string) : list PrimFloat.float :=
  if String.eqb s "A" then [Binary64.three_quarters]
  else if String.eqb s "D" then [Binary64.three_quarters; Binary64.quarter]
  else if String.eqb s "E" then [PrimFloat.nan]
  else [Binary64.half; Binary64.quarter].

Definition fdemo : Chemprop Flib :=
  {| morgan_fingerprint := fdemo_fingerprint : string -> list (@float Flib);
     predict := fdemo_predict : string -> list (@float Flib);
     compute_molecule_vectors := fdemo_vector : string -> list (@float Flib) |}.

(** A run on four test molecules, two of them with the prediction 0.75 and
    two with the prediction 0.5, and two training molecules. *)
Definition fdemo_run : @M Flib unit :=
  @find_similar_preds Flib fdemo ["C"; "A"; "D"; "B"] ["B"; "C"] ["B"]
    "vec" "out.csv" 2.

(** A run in which the second of three test molecules has the prediction
    NaN. *)
Definition fdemo_nan_run : @M Flib unit :=
  @find_similar_preds Flib fdemo ["B"; "E"; "A"] ["B"; "C"] ["B"]
    "vec" "out.csv" 2.

(** ** The shape of a row *)

(** The number of elements that [l[:k]] keeps of a list of length [n]. *)
Definition kept (k : Z) (n : nat) : nat :=
  if (0 <=? k)%Z then Nat.min (Z.to_nat k) n else n - Z.to_nat (- k).

(** The keys that lines 71-82 insert for [m] selected training molecules, in
    the order of insertion. *)
Definition fieldnames_of (k : Z) (m : nat) : list string :=
  ["test_smiles"; "in_train"; "test_pred"; key_avg_vec k; key_avg_morgan k]
  ++ flat_map train_keys (seq 1 m).

(** The key under which a row holds, for rank [i], the distance that the
    selection was made with (lines 53-56). *)
Definition selection_key (distance_measure : string) (i : nat) : string :=
  if String.eqb distance_measure "vec" then key_train_vec_dist i
  else key_train_morgan_dist i.

(** ** The order of the predictions *)



(** The number under [test_pred] in a row. *)
Definition pred_field {N : NumLib} (d : odict value) : option float :=
  match od_find d "test_pred" with
  | Some (VFloat x) => Some x
  | _ => None
  end.


(** * Properties *)

Example scenario_run :
  @find_similar_preds Zlib demo ["A"] ["B"; "C"] ["B"] "vec" "out.csv" 2 =
  (prelude ++
   [ECdist Jaccard; ECdist Cosine; EPrint "Finding neighbors";
    EPrint "Saving distances"; EOpen "out.csv";
    EWriteHeader
      ["test_smiles"; "in_train"; "test_pred"; "train_2_avg_vec_cosine_dist";
       "train_2_avg_morgan_jaccard_dist"; "train_smiles_1";
       "train_is_antibiotic_1"; "train_vec_cosine_dist_1";
       "train_morgan_jaccard_dist_1"; "train_smiles_2";
       "train_is_antibiotic_2"; "train_vec_cosine_dist_2";
       "train_morgan_jaccard_dist_2"];
    EWriteRow
      [("test_smiles", @VStr Zlib "A"); ("in_train", @VBool Zlib false);
       ("test_pred", @VFloat Zlib 90%Z);
       ("train_2_avg_vec_cosine_dist", @VFloat Zlib 50%Z);
       ("train_2_avg_morgan_jaccard_dist", @VFloat Zlib 75%Z);
       ("train_smiles_1", @VStr Zlib "B"); ("train_is_antibiotic_1", @VBool Zlib true);
       ("train_vec_cosine_dist_1", @VFloat Zlib 0%Z);
       ("train_morgan_jaccard_dist_1", @VFloat Zlib 50%Z);
       ("train_smiles_2", @VStr Zlib "C"); ("train_is_antibiotic_2", @VBool Zlib false);
       ("train_vec_cosine_dist_2", @VFloat Zlib 100%Z);
       ("train_morgan_jaccard_dist_2", @VFloat Zlib 100%Z)]],
   Ok tt).
Proof. reflexivity. Qed.

(** ** Insertion sort *)

Section InsertionFacts.
Context {A : Type} (before : A -> A -> bool).

Lemma insert_perm (x : A) (l : list A) :
  Permutation (insert before x l) (x :: l).
Proof.
  induction l as [|y l IH]; simpl.
  - apply Permutation_refl.
  - destruct (before x y).
    + apply Permutation_refl.
    + eapply Permutation_trans.
      * apply perm_skip. exact IH.
      * apply perm_swap.
Qed.

Lemma insertion_sort_perm (l : list A) :
  Permutation (insertion_sort before l) l.
Proof.
  induction l as [|x l IH]; simpl.
  - apply Permutation_refl.
  - eapply Permutation_trans.
    + apply insert_perm.
    + apply perm_skip. exact IH.
Qed.

Lemma insert_filter_in (p : A -> bool) (x : A) (l : list A) :
  p x = true ->
  (forall y, In y l -> p y = true -> before x y = true) ->
  filter p (insert before x l) = x :: filter p l.
Proof.
  intros Hx. induction l as [|y l IH]; intros Hl; simpl.
  - rewrite Hx. reflexivity.
  - destruct (before x y) eqn:Hb.
    + simpl. rewrite Hx. reflexivity.
    + simpl. destruct (p y) eqn:Hy.
      * rewrite (Hl y (or_introl eq_refl) Hy) in Hb. discriminate.
      * apply IH. intros z Hz. apply Hl. right. exact Hz.
Qed.

Lemma insert_filter_out (p : A -> bool) (x : A) (l : list A) :
  p x = false -> filter p (insert before x l) = filter p l.
Proof.
  intros Hx. induction l as [|y l IH]; simpl.
  - rewrite Hx. reflexivity.
  - destruct (before x y); simpl.
    + rewrite Hx. reflexivity.
    + rewrite IH. reflexivity.
Qed.

(** Stability: the elements of a class whose members go before each other
    come out in the order they came in. *)
Lemma insertion_sort_filter (p : A -> bool) (l : list A) :
  (forall x y, p x = true -> p y = true -> before x y = true) ->
  filter p (insertion_sort before l) = filter p l.
Proof.
  intros Hp. induction l as [|x l IH]; simpl.
  - reflexivity.
  - destruct (p x) eqn:Hx.
    + rewrite insert_filter_in; [rewrite IH; reflexivity | exact Hx |].
      intros y _ Hy. apply Hp; assumption.
    + rewrite insert_filter_out by exact Hx. exact IH.
Qed.

Section Order.
Context (R : A -> A -> Prop).
Hypothesis R_trans : forall x y z, R x y -> R y z -> R x z.
Hypothesis before_R : forall x y, before x y = true -> R x y.
Hypothesis behind_R : forall x y, before x y = false -> R y x.

Lemma insert_sorted (x : A) (l : list A) :
  StronglySorted R l -> StronglySorted R (insert before x l).
Proof.
  induction l as [|y l IH]; intros Hs; simpl.
  - constructor; constructor.
  - inversion Hs as [|? ? Hl Hy]; subst.
    destruct (before x y) eqn:Hb.
    + constructor; [exact Hs|].
      constructor; [apply before_R; exact Hb|].
      eapply Forall_impl; [|exact Hy].
      intros z Hz. eapply R_trans; [apply before_R; exact Hb | exact Hz].
    + constructor; [apply IH; exact Hl|].
      eapply Permutation_Forall.
      * apply Permutation_sym. apply insert_perm.
      * constructor; [apply behind_R; exact Hb | exact Hy].
Qed.

Lemma insertion_sort_sorted (l : list A) :
  StronglySorted R (insertion_sort before l).
Proof.
  induction l as [|x l IH]; simpl.
  - constructor.
  - apply insert_sorted. exact IH.
Qed.
End Order.
End InsertionFacts.

(** ** The two index sorts meet what numpy documents *)

Lemma map_snd_combine_seq {K : Type} (row : list K) (s : nat) :
  map snd (combine row (seq s (List.length row))) = seq s (List.length row).
Proof.
  revert s. induction row as [|a row IH]; intros s; simpl.
  - reflexivity.
  - rewrite IH. reflexivity.
Qed.

Lemma in_combine_seq {K : Type} (row : list K) (s : nat) (a : K) (i : nat) :
  In (a, i) (combine row (seq s (List.length row))) ->
  s <= i /\ nth_error row (i - s) = Some a.
Proof.
  revert s. induction row as [|b row IH]; intros s; simpl.
  - intros [].
  - intros [H|H].
    + inversion H; subst. split; [lia|]. rewrite Nat.sub_diag. reflexivity.
    + apply IH in H. destruct H as [Hle Hn]. split; [lia|].
      replace (i - s) with (S (i - S s)) by lia. exact Hn.
Qed.

Lemma argsort_insertion_permutes {K : Type} (before : K * nat -> K * nat -> bool)
    (row : list K) :
  Permutation
    (map snd (insertion_sort before (combine row (seq 0 (List.length row)))))
    (seq 0 (List.length row)).
Proof.
  rewrite <- (map_snd_combine_seq row 0) at 2.
  apply Permutation_map. apply insertion_sort_perm.
Qed.

Lemma sorted_pairs_entry_le {N : NumLib} (row : list float)
    (l : list (float * nat)) :
  Forall (fun p => nth_error row (snd p) = Some (fst p)) l ->
  StronglySorted (fun x y => lt (fst y) (fst x) = false) l ->
  StronglySorted (entry_le row) (map snd l).
Proof.
  intros Hok Hs. induction Hs as [|x l Hs IH Hx]; simpl.
  - constructor.
  - inversion Hok as [|? ? Hx0 Hl]; subst.
    constructor; [apply IH; exact Hl|].
    apply Forall_map. rewrite Forall_forall in *.
    intros y Hy a b Ha Hb.
    rewrite Hx0 in Ha. inversion Ha; subst a.
    rewrite (Hl y Hy) in Hb. inversion Hb; subst b.
    apply Hx. exact Hy.
Qed.

Lemma argsort_insertion_ascending {N : NumLib}
    (before : float * nat -> float * nat -> bool) :
  strict_weak_order lt ->
  (forall x y, before x y = true -> lt (fst y) (fst x) = false) ->
  (forall x y, before x y = false -> lt (fst x) (fst y) = false) ->
  forall row : list float,
    StronglySorted (entry_le row)
      (map snd (insertion_sort before (combine row (seq 0 (List.length row))))).
Proof.
  intros [Hasym Htrans] Hb Hnb row.
  apply sorted_pairs_entry_le.
  - eapply Permutation_Forall.
    + apply Permutation_sym. apply insertion_sort_perm.
    + rewrite Forall_forall. intros [a i] Hin.
      apply in_combine_seq in Hin. destruct Hin as [_ Hn].
      rewrite Nat.sub_0_r in Hn. exact Hn.
  - apply insertion_sort_sorted
      with (R := fun x y : float * nat => lt (fst y) (fst x) = false).
    + intros x y z Hxy Hyz. eapply Htrans; eassumption.
    + exact Hb.
    + exact Hnb.
Qed.

Lemma Zltb_strict_weak_order : strict_weak_order Z.ltb.
Proof.
  split.
  - intros x y H. apply Z.ltb_lt in H. apply Z.ltb_ge. lia.
  - intros x y z H1 H2. apply Z.ltb_ge in H1, H2. apply Z.ltb_ge. lia.
Qed.

Lemma Zlib_argsort_permutes : argsort_permutes Zlib.
Proof. intros row. apply argsort_insertion_permutes. Qed.

Lemma Zlib_argsort_ascending : argsort_ascending Zlib.
Proof.
  intros row.
  apply (@argsort_insertion_ascending Zlib).
  - exact Zltb_strict_weak_order.
  - intros x y H. apply negb_true_iff in H. exact H.
  - intros x y H. apply negb_false_iff in H.
    apply (proj1 Zltb_strict_weak_order). exact H.
Qed.

(** ** With a stable index sort, equal entries come in index order *)

Section InsertionInputOrder.
Context {A : Type} (before : A -> A -> bool).
Context (R older : A -> A -> Prop).
Hypothesis R_trans : forall x y z, R x y -> R y z -> R x z.
Hypothesis before_R : forall x y, older x y -> before x y = true -> R x y.
Hypothesis behind_R : forall x y, older x y -> before x y = false -> R y x.

Lemma insert_sorted_older (x : A) (l : list A) :
  Forall (older x) l -> StronglySorted R l ->
  StronglySorted R (insert before x l).
Proof.
  induction l as [|y l IH]; intros Ho Hs; simpl.
  - constructor; constructor.
  - inversion Hs as [|? ? Hl Hy]; subst.
    inversion Ho as [|? ? Hxy Ho']; subst.
    destruct (before x y) eqn:Hb.
    + constructor; [exact Hs|].
      constructor; [apply before_R; assumption|].
      eapply Forall_impl; [|exact Hy].
      intros z Hz. eapply R_trans; [apply before_R; eassumption | exact Hz].
    + constructor; [apply IH; assumption|].
      eapply Permutation_Forall.
      * apply Permutation_sym. apply insert_perm.
      * constructor; [apply behind_R; assumption | exact Hy].
Qed.

Lemma insertion_sort_sorted_older (l : list A) :
  StronglySorted older l -> StronglySorted R (insertion_sort before l).
Proof.
  induction 1 as [|x l Hs IH Hx]; simpl.
  - constructor.
  - apply insert_sorted_older; [|exact IH].
    eapply Permutation_Forall;
      [apply Permutation_sym; apply insertion_sort_perm | exact Hx].
Qed.
End InsertionInputOrder.

Lemma combine_seq_older {K : Type} (row : list K) (s : nat) :
  StronglySorted (fun x y : K * nat => snd x < snd y)
    (combine row (seq s (List.length row))).
Proof.
  revert s. induction row as [|a row IH]; intros s; simpl.
  - constructor.
  - constructor; [apply IH|].
    rewrite Forall_forall. intros [b j] Hin.
    apply in_combine_seq in Hin. simpl. lia.
Qed.

Lemma argsort_stable_ties_by_index {N : NumLib} (row : list float) :
  strict_weak_order lt ->
  StronglySorted
    (fun i j => entry_le row i j /\ (entry_le row j i -> i < j))
    (argsort_stable lt row).
Proof.
  intros [Hasym Htrans]. unfold argsort_stable.
  set (before := fun x y : float * nat => negb (lt (fst y) (fst x))).
  set (P := insertion_sort before (combine row (seq 0 (List.length row)))).
  assert (Hok : Forall (fun p => nth_error row (snd p) = Some (fst p)) P).
  { eapply Permutation_Forall.
    - apply Permutation_sym. apply insertion_sort_perm.
    - rewrite Forall_forall. intros [a i] Hin.
      apply in_combine_seq in Hin. destruct Hin as [_ Hn].
      rewrite Nat.sub_0_r in Hn. exact Hn. }
  assert (Hs : StronglySorted
            (fun x y : float * nat =>
               lt (fst y) (fst x) = false /\
               (lt (fst x) (fst y) = false -> snd x < snd y)) P).
  { apply insertion_sort_sorted_older
      with (older := fun x y : float * nat => snd x < snd y).
    - intros x y z [H1 H2] [H3 H4]. split.
      + eapply Htrans; eassumption.
      + intros Hxz.
        assert (Hxy : lt (fst x) (fst y) = false).
        { destruct (lt (fst x) (fst y)) eqn:E; [|reflexivity].
          rewrite (Htrans _ _ _ Hxz H3) in E. discriminate. }
        assert (Hyz : lt (fst y) (fst z) = false).
        { destruct (lt (fst y) (fst z)) eqn:E; [|reflexivity].
          rewrite (Htrans _ _ _ H1 Hxz) in E. discriminate. }
        specialize (H2 Hxy). specialize (H4 Hyz). lia.
    - intros x y Ho Hb. unfold before in Hb. apply negb_true_iff in Hb.
      split; [exact Hb | intros _; exact Ho].
    - intros x y Ho Hb. unfold before in Hb. apply negb_false_iff in Hb.
      split; [apply Hasym; exact Hb|].
      intros E. rewrite E in Hb. discriminate.
    - apply combine_seq_older. }
  clearbody P. clear before.
  induction Hs as [|x l Hs IH Hx]; simpl.
  - constructor.
  - inversion Hok as [|? ? Hx0 Hl]; subst.
    constructor; [apply IH; exact Hl|].
    apply Forall_map. rewrite Forall_forall in *.
    intros y Hy. destruct (Hx y Hy) as [H1 H2].
    pose proof (Hl y Hy) as Hy0. split.
    + intros a b Ha Hb. rewrite Hx0 in Ha. rewrite Hy0 in Hb.
      inversion Ha; inversion Hb; subst. exact H1.
    + intros Hle. apply H2. apply (Hle _ _ Hy0 Hx0).
Qed.

(** ** The neighbour selection of line 64 *)

Lemma StronglySorted_app_inv {A : Type} (R : A -> A -> Prop) (l1 l2 : list A) :
  StronglySorted R (l1 ++ l2) ->
  StronglySorted R l1 /\ (forall x y, In x l1 -> In y l2 -> R x y).
Proof.
  induction l1 as [|a l1 IH]; simpl; intros Hs.
  - split; [constructor | intros x y []].
  - inversion Hs as [|? ? Hl Ha]; subst.
    destruct (IH Hl) as [H1 H2]. split.
    + constructor; [exact H1|].
      apply Forall_app in Ha. tauto.
    + intros x y [Hx|Hx] Hy.
      * subst x. rewrite Forall_forall in Ha. apply Ha.
        apply in_or_app. right. exact Hy.
      * apply H2; assumption.
Qed.

Lemma in_firstn {A : Type} (n : nat) (l : list A) (x : A) :
  In x (firstn n l) -> In x l.
Proof.
  intros H. rewrite <- (firstn_skipn n l). apply in_or_app. left. exact H.
Qed.

Section Nearest.
Context {N : NumLib}.

Lemma nearest_nonneg (row : list float) (k : Z) :
  (0 <= k)%Z -> nearest_train row k = firstn (Z.to_nat k) (np_argsort row).
Proof.
  intros Hk. unfold nearest_train, slice_to.
  destruct (0 <=? k)%Z eqn:E; [reflexivity|].
  apply Z.leb_gt in E. lia.
Qed.

Lemma nearest_all (row : list float) (k : Z) :
  argsort_permutes N ->
  (Z.of_nat (List.length row) <= k)%Z ->
  nearest_train row k = np_argsort row.
Proof.
  intros Hp Hk. rewrite nearest_nonneg by lia.
  apply firstn_all2.
  rewrite (Permutation_length (Hp row)), length_seq. lia.
Qed.

Lemma nearest_length (row : list float) (k : Z) :
  argsort_permutes N ->
  List.length (nearest_train row k) =
  if (0 <=? k)%Z then Nat.min (Z.to_nat k) (List.length row)
  else List.length row - Z.to_nat (- k).
Proof.
  intros Hp. unfold nearest_train, slice_to.
  pose proof (Permutation_length (Hp row)) as Hl.
  rewrite length_seq in Hl.
  destruct (0 <=? k)%Z; rewrite length_firstn, Hl; lia.
Qed.

Lemma nearest_incl (row : list float) (k : Z) (i : nat) :
  argsort_permutes N -> In i (nearest_train row k) -> i < List.length row.
Proof.
  intros Hp Hi.
  assert (Hin : In i (np_argsort row)).
  { unfold nearest_train, slice_to in Hi.
    destruct (0 <=? k)%Z; eapply in_firstn; exact Hi. }
  apply (Permutation_in _ (Hp row)) in Hin.
  apply in_seq in Hin. lia.
Qed.
End Nearest.

(** Had line 64 asked for a stable sort, equal distances would come in the
    order of the indices. *)
Lemma nearest_train_stable_ties (N : NumLib) (row : list float) (k : Z) :
  strict_weak_order lt ->
  np_argsort row = argsort_stable lt row ->
  (0 <= k)%Z ->
  StronglySorted
    (fun i j => entry_le row i j /\ (entry_le row j i -> i < j))
    (nearest_train row k).
Proof.
  intros Hswo Hst Hk. rewrite nearest_nonneg by exact Hk. rewrite Hst.
  pose proof (argsort_stable_ties_by_index row Hswo) as Hs.
  rewrite <- (firstn_skipn (Z.to_nat k) (argsort_stable lt row)) in Hs.
  apply StronglySorted_app_inv in Hs. exact (proj1 Hs).
Qed.



(** The default kind of [np.argsort] on small rows: two equal distances
    come in the order of the indices, and a row of distinct distances is read
    in ascending order. *)
Example npy_argsort_small_rows :
  @np_argsort Flib [Binary64.half; Binary64.half] = [0; 1] /\
  @np_argsort Flib
    [Binary64.three_quarters; Binary64.quarter; PrimFloat.one;
     PrimFloat.zero; Binary64.half] = [3; 1; 4; 0; 2].
Proof. vm_compute. split; reflexivity. Qed.


(** ** The run of the script, stage by stage *)

Section Run.
Context {N : NumLib} {C : Chemprop N}.

Lemma cdist_ok_inv (XA XB : matrix) (m : metric) (D : matrix) :
  cdist XA XB m = Ok D ->
  D = map (fun u => map (fun v => metric_fun m u v) XB) XA /\
  XA <> [] /\ XB <> [].
Proof.
  unfold cdist. intros H.
  destruct XA as [|a XA]; [discriminate|].
  destruct (shape2 (a :: XA)) as [[nA dA]|]; [|discriminate].
  destruct XB as [|b XB]; [discriminate|].
  destruct (shape2 (b :: XB)) as [[nB dB]|]; [|discriminate].
  destruct (Nat.eqb dA dB); [|discriminate].
  inversion H. repeat split; discriminate.
Qed.

Lemma cdist_raises_ValueError (XA XB : matrix) (m : metric) (e : exn) :
  cdist XA XB m = Raise e -> exists msg, e = ValueError msg.
Proof.
  unfold cdist. intros H.
  destruct (shape2 XA) as [[nA dA]|]; [|inversion H; eauto].
  destruct (shape2 XB) as [[nB dB]|]; [|inversion H; eauto].
  destruct (Nat.eqb dA dB); [discriminate|inversion H; eauto].
Qed.

Lemma written_map_rows (l : list (odict value)) :
  written (map EWriteRow l) = l.
Proof.
  unfold written. induction l as [|d l IH]; simpl; [reflexivity|].
  rewrite IH. reflexivity.
Qed.

Lemma written_app (t1 t2 : list event) :
  written (t1 ++ t2) = written t1 ++ written t2.
Proof. unfold written. apply flat_map_app. Qed.

Lemma forM_writerow_inv (fieldnames : list string) (l : list (odict value))
    (t : list event) :
  forM_ l (writerow fieldnames) = (t, Ok tt) -> t = map EWriteRow l.
Proof.
  revert t. induction l as [|d l IH]; intros t; simpl.
  - unfold ret. intros H. inversion H. reflexivity.
  - unfold writerow at 1.
    destruct (forallb (fun k => mem k fieldnames) (od_keys d)).
    + unfold emit, bind.
      destruct (forM_ l (writerow fieldnames)) as [t' r] eqn:E.
      intros H. inversion H; subst. simpl. f_equal. apply IH. reflexivity.
    + unfold lift, bind. intros H. inversion H.
Qed.

Lemma forM_writerow_all (fieldnames : list string) (l : list (odict value)) :
  Forall (fun d => forallb (fun k => mem k fieldnames) (od_keys d) = true) l ->
  forM_ l (writerow fieldnames) = (map EWriteRow l, Ok tt).
Proof.
  induction 1 as [|d l Hd Hl IH]; simpl; [reflexivity|].
  unfold writerow at 1. rewrite Hd. unfold emit, bind. rewrite IH.
  reflexivity.
Qed.

Lemma save_empty (save_path : string) :
  save save_path [] =
  ([EPrint "Saving distances"; EOpen save_path],
   Raise (IndexError "index out of range")).
Proof. reflexivity. Qed.

Lemma save_cons (save_path : string) (d : odict value)
    (l : list (odict value)) :
  save save_path (d :: l) =
  let (t, r) := forM_ (d :: l) (writerow (od_keys d)) in
  ([EPrint "Saving distances"; EOpen save_path; EWriteHeader (od_keys d)] ++ t,
   r).
Proof.
  unfold save, print, emit, lift, bind, index. simpl nth_error. cbv iota beta.
  destruct (forM_ (d :: l) (writerow (od_keys d))) as [t r]. reflexivity.
Qed.

Lemma run_stages (test_data train_data ab : list string)
    (dm save_path : string) (k : Z) :
  find_similar_preds test_data train_data ab dm save_path k =
  match cdist (map morgan_fingerprint test_data)
          (map morgan_fingerprint train_data) Jaccard with
  | Raise e => (prelude ++ [ECdist Jaccard], Raise e)
  | Ok md =>
      match cdist (map compute_molecule_vectors test_data)
              (map compute_molecule_vectors train_data) Cosine with
      | Raise e => (prelude ++ [ECdist Jaccard; ECdist Cosine], Raise e)
      | Ok vd =>
          match select_dist_matrix dm vd md with
          | Raise e => (prelude ++ [ECdist Jaccard; ECdist Cosine], Raise e)
          | Ok dmx =>
              match find_neighbors
                      (Build_locals test_data train_data ab
                         (map predict test_data) md vd dmx k)
                      (List.length test_data) with
              | Raise e => (before_save, Raise e)
              | Ok neighbors =>
                  match sort_by_test_pred neighbors with
                  | Raise e => (before_save, Raise e)
                  | Ok sorted =>
                      let (t, r) := save save_path sorted in
                      (before_save ++ t, r)
                  end
              end
          end
      end
  end.
Proof.
  unfold find_similar_preds, call_cdist, print, emit, lift, bind.
  destruct (cdist (map morgan_fingerprint test_data) _ Jaccard) as [md|e];
    [|reflexivity].
  destruct (cdist (map compute_molecule_vectors test_data) _ Cosine) as [vd|e];
    [|reflexivity].
  destruct (select_dist_matrix dm vd md) as [dmx|e]; [|reflexivity].
  destruct (find_neighbors _ _) as [neighbors|e]; [|reflexivity].
  destruct (sort_by_test_pred neighbors) as [sorted|e]; [|reflexivity].
  destruct (save save_path sorted) as [t r]. reflexivity.
Qed.
End Run.

(** ** Inputs the script refuses *)

Section Refused.
Context {N : NumLib} {C : Chemprop N}.


Lemma select_supported (dm : string) (vd md dmx : matrix) :
  select_dist_matrix dm vd md = Ok dmx ->
  (dm = "vec" /\ dmx = vd) \/ (dm = "morgan" /\ dmx = md).
Proof.
  unfold select_dist_matrix.
  destruct (String.eqb dm "vec") eqn:E1.
  - apply String.eqb_eq in E1. intros H. inversion H. left. split; auto.
  - destruct (String.eqb dm "morgan") eqn:E2; [|discriminate].
    apply String.eqb_eq in E2. intros H. inversion H. right. split; auto.
Qed.
End Refused.

(** C2 (as the code has it): with an empty test set the script stops at the
    first distance computation, where [cdist] refuses the empty array of
    fingerprints with a ValueError; no neighbour is searched and the output
    file is not opened. *)
Theorem empty_test_set_raises (N : NumLib) (C : Chemprop N)
    (train_data ab : list string) (dm save_path : string) (k : Z) :
  find_similar_preds [] train_data ab dm save_path k =
  (prelude ++ [ECdist Jaccard],
   Raise (ValueError "XA must be a 2-dimensional array.")).
Proof. rewrite run_stages. reflexivity. Qed.

(** C2 fails as stated: an empty test set with two training molecules does
    not complete with an empty report, it raises. *)
Lemma empty_test_set_counterexample :
  @find_similar_preds Zlib demo [] ["B"; "C"] ["B"] "vec" "out.csv" 2 =
  (prelude ++ [ECdist Jaccard],
   Raise (ValueError "XA must be a 2-dimensional array.")) /\
  snd (@find_similar_preds Zlib demo [] ["B"; "C"] ["B"] "vec" "out.csv" 2)
  <> Ok tt.
Proof. split; [reflexivity | discriminate]. Qed.




(** C5: with an empty training set (and a positive neighbour count) the
    script raises a ValueError, the one of [cdist] on an array that is not
    two-dimensional, and no call touches the output file. *)
Theorem empty_train_set_raises (N : NumLib) (C : Chemprop N)
    (test_data ab : list string) (dm save_path : string) (k : Z) :
  (0 < k)%Z ->
  exists t msg,
    find_similar_preds test_data [] ab dm save_path k
    = (t, Raise (ValueError msg)) /\
    forallb (fun e => negb (file_event e)) t = true /\
    written t = [].
Proof.
  intros _. rewrite run_stages.
  destruct (cdist (map morgan_fingerprint test_data) _ Jaccard) as [md|e] eqn:E.
  - apply cdist_ok_inv in E. destruct E as [_ [_ E]]. exfalso. apply E.
    reflexivity.
  - apply cdist_raises_ValueError in E. destruct E as [msg ->].
    exists (prelude ++ [ECdist Jaccard]), msg.
    split; [reflexivity|]. split; reflexivity.
Qed.

Lemma empty_train_set_raises_witness :
  exists t msg,
    @find_similar_preds Zlib demo ["A"] [] ["B"] "vec" "out.csv" 2
    = (t, Raise (ValueError msg)) /\
    forallb (fun e => negb (@file_event Zlib e)) t = true /\
    @written Zlib t = [].
Proof.
  apply (empty_train_set_raises Zlib demo ["A"] ["B"] "vec" "out.csv" 2).
  lia.
Defined.

(** ** The keys of a dictionary are all different *)

Lemma str_of_nat_inj (i j : nat) : str_of_nat i = str_of_nat j -> i = j.
Proof.
  assert (Hnn : forall n, Nat.to_uint n <> Decimal.Nil).
  { intros n H. pose proof (Unsigned.of_to n) as E. rewrite H in E.
    simpl in E. subst n. discriminate H. }
  unfold str_of_nat. intros H.
  apply (f_equal NilZero.uint_of_string) in H.
  rewrite !NilZero.usu in H by apply Hnn.
  inversion H as [E]. apply Unsigned.to_uint_inj. exact E.
Qed.

Lemma str_of_int_head (k : Z) :
  exists c s, str_of_int k = String c s /\
              In c ["-"; "0"; "1"; "2"; "3"; "4"; "5"; "6"; "7"; "8"; "9"]%char.
Proof.
  unfold str_of_int.
  destruct (Z.to_int k) as [d|d]; simpl.
  - destruct d; simpl; eexists; eexists; (split; [reflexivity|]);
      simpl; tauto.
  - eexists; eexists; split; [reflexivity|]. simpl; tauto.
Qed.

Lemma append_inj_l (p a b : string) : (p ++ a = p ++ b)%string -> a = b.
Proof.
  induction p as [|c p IH]; simpl; intros H; [exact H|].
  inversion H. apply IH. assumption.
Qed.

Ltac unfold_keys :=
  unfold train_keys, key_train_smiles, key_train_is_antibiotic,
    key_train_vec_dist, key_train_morgan_dist, key_avg_vec, key_avg_morgan
    in *;
  cbn [String.append In] in *.

Lemma train_keys_inj (i j : nat) (k : string) :
  In k (train_keys i) -> In k (train_keys j) -> i = j.
Proof.
  unfold_keys. intros Hi Hj.
  repeat (destruct Hi as [Hi|Hi]); try contradiction; subst k;
    repeat (destruct Hj as [Hj|Hj]); try contradiction;
    try discriminate Hj;
    injection Hj as Hj; symmetry; apply str_of_nat_inj; exact Hj.
Qed.

Lemma train_keys_NoDup (i : nat) : NoDup (train_keys i).
Proof.
  unfold_keys.
  repeat constructor; cbn [In]; intros H;
    repeat (destruct H as [H|H]); try contradiction; discriminate H.
Qed.

Lemma base_not_train_key (i : nat) (k : string) :
  In k ["test_smiles"; "in_train"; "test_pred"] -> ~ In k (train_keys i).
Proof.
  unfold_keys. intros Hk Hi.
  repeat (destruct Hk as [Hk|Hk]); try contradiction; subst k;
    repeat (destruct Hi as [Hi|Hi]); try contradiction; discriminate Hi.
Qed.

Lemma avg_not_train_key (i : nat) (n : Z) (k : string) :
  In k [key_avg_vec n; key_avg_morgan n] -> ~ In k (train_keys i).
Proof.
  destruct (str_of_int_head n) as (c & s & E & Hc).
  unfold_keys. rewrite E in *. cbn [String.append] in *.
  intros Hk Hi.
  repeat (destruct Hk as [Hk|Hk]); try contradiction; subst k;
    repeat (destruct Hi as [Hi|Hi]); try contradiction;
    injection Hi as Hc' _; subst c;
    repeat (destruct Hc as [Hc|Hc]; [discriminate Hc|]); contradiction.
Qed.

Lemma avg_not_base (n : Z) (k : string) :
  In k [key_avg_vec n; key_avg_morgan n] ->
  ~ In k ["test_smiles"; "in_train"; "test_pred"].
Proof.
  unfold_keys. intros Hk Hb.
  repeat (destruct Hk as [Hk|Hk]); try contradiction; subst k;
    repeat (destruct Hb as [Hb|Hb]); try contradiction; discriminate Hb.
Qed.

Lemma avg_vec_not_avg_morgan (n : Z) : key_avg_vec n <> key_avg_morgan n.
Proof.
  unfold key_avg_vec, key_avg_morgan. intros H.
  apply append_inj_l in H. apply append_inj_l in H. discriminate H.
Qed.

(** ** Ordered dictionaries *)

Section DictFacts.
Context {V : Type}.

Lemma od_find_set_eq (d : odict V) (k : string) (v : V) :
  od_find (od_set d k v) k = Some v.
Proof.
  induction d as [|[k' v'] d IH]; simpl.
  - rewrite String.eqb_refl. reflexivity.
  - destruct (String.eqb k k') eqn:E; simpl.
    + rewrite String.eqb_refl. reflexivity.
    + rewrite E. exact IH.
Qed.

Lemma od_find_set_neq (d : odict V) (k k' : string) (v : V) :
  k' <> k -> od_find (od_set d k v) k' = od_find d k'.
Proof.
  intros Hne. induction d as [|[k0 v0] d IH]; simpl.
  - apply String.eqb_neq in Hne. rewrite Hne. reflexivity.
  - destruct (String.eqb k k0) eqn:E; simpl.
    + apply String.eqb_eq in E. subst k0.
      apply String.eqb_neq in Hne. rewrite Hne. reflexivity.
    + rewrite IH. reflexivity.
Qed.

Lemma od_keys_set (d : odict V) (k k' : string) (v : V) :
  In k' (od_keys (od_set d k v)) <-> k' = k \/ In k' (od_keys d).
Proof.
  unfold od_keys. induction d as [|[k0 v0] d IH]; simpl.
  - intuition.
  - destruct (String.eqb k k0) eqn:E; simpl.
    + apply String.eqb_eq in E. subst k0. intuition.
    + rewrite IH. intuition.
Qed.
End DictFacts.

Lemma mem_true_iff (x : string) (s : list string) : mem x s = true <-> In x s.
Proof.
  unfold mem. rewrite existsb_exists. split.
  - intros [y [Hy E]]. apply String.eqb_eq in E. subst y. exact Hy.
  - intros H. exists x. split; [exact H | apply String.eqb_refl].
Qed.

(** ** Indexing *)

Lemma index_ok {A : Type} (l : list A) (i : nat) (a : A) :
  index l i = Ok a <-> nth_error l i = Some a.
Proof.
  unfold index. destruct (nth_error l i); split; intros H;
    inversion H; reflexivity.
Qed.

Lemma mapM_ok {A B : Type} (f : A -> result B) (l : list A) (bs : list B) :
  mapM f l = Ok bs <-> Forall2 (fun a b => f a = Ok b) l bs.
Proof.
  revert bs. induction l as [|a l IH]; intros bs; simpl.
  - split; intros H; inversion H; constructor.
  - split.
    + destruct (f a) as [b|e] eqn:E; simpl; [|discriminate].
      destruct (mapM f l) as [bs'|e] eqn:E'; simpl; [|discriminate].
      intros H. inversion H; subst. constructor; [exact E|].
      apply IH. reflexivity.
    + intros H. inversion H as [|? b ? bs' Hb Hbs]; subst.
      rewrite Hb. simpl. apply IH in Hbs. rewrite Hbs. reflexivity.
Qed.

Lemma Forall2_nth_error {A B : Type} (R : A -> B -> Prop) (l : list A)
    (l' : list B) :
  Forall2 R l l' ->
  forall i a, nth_error l i = Some a ->
              exists b, nth_error l' i = Some b /\ R a b.
Proof.
  induction 1 as [|x y l l' Hxy Hl IH]; intros i a Hi.
  - destruct i; discriminate.
  - destruct i as [|i]; simpl in *.
    + inversion Hi; subst. eauto.
    + apply IH. exact Hi.
Qed.

Lemma Forall2_length_eq {A B : Type} (R : A -> B -> Prop) (l : list A)
    (l' : list B) :
  Forall2 R l l' -> List.length l = List.length l'.
Proof. induction 1; simpl; congruence. Qed.

(** ** The dictionary of one test molecule *)

Section Neighbor.
Context {N : NumLib}.

Lemma add_train_fields_inv (L : locals) (vds mds : list float)
    (d0 d : odict value) (i j : nat) :
  add_train_fields L vds mds d0 (i, j) = Ok d ->
  exists sm v m,
    nth_error (train_smiles L) j = Some sm /\
    nth_error vds i = Some v /\
    nth_error mds i = Some m /\
    d = od_set (od_set (od_set (od_set d0
          (key_train_smiles (i + 1)) (VStr sm))
          (key_train_is_antibiotic (i + 1)) (VBool (mem sm (antibiotics L))))
          (key_train_vec_dist (i + 1)) (VFloat v))
          (key_train_morgan_dist (i + 1)) (VFloat m).
Proof.
  unfold add_train_fields, index.
  destruct (nth_error (train_smiles L) j) as [sm|]; [|discriminate].
  destruct (nth_error vds i) as [v|]; [|discriminate].
  destruct (nth_error mds i) as [m|]; [|discriminate].
  simpl. intros H. inversion H. exists sm, v, m. repeat split.
Qed.

Lemma four_sets_rank_fields (d0 : odict value) (i : nat) (sm : string)
    (b : bool) (v m : float) :
  rank_fields
    (od_set (od_set (od_set (od_set d0
       (key_train_smiles i) (VStr sm))
       (key_train_is_antibiotic i) (VBool b))
       (key_train_vec_dist i) (VFloat v))
       (key_train_morgan_dist i) (VFloat m))
    i sm b v m.
Proof.
  unfold rank_fields.
  repeat split;
    repeat (rewrite od_find_set_neq by (unfold_keys; discriminate));
    apply od_find_set_eq.
Qed.

Lemma four_sets_other (d0 : odict value) (i : nat) (sm : string)
    (b : bool) (v m : float) (k : string) :
  ~ In k (train_keys i) ->
  od_find
    (od_set (od_set (od_set (od_set d0
       (key_train_smiles i) (VStr sm))
       (key_train_is_antibiotic i) (VBool b))
       (key_train_vec_dist i) (VFloat v))
       (key_train_morgan_dist i) (VFloat m)) k
  = od_find d0 k.
Proof.
  intros Hk. unfold train_keys in Hk. cbn [In] in Hk.
  repeat (rewrite od_find_set_neq by (intros E; apply Hk; subst k; tauto)).
  reflexivity.
Qed.

Lemma four_sets_keys (d0 : odict value) (i : nat) (sm : string)
    (b : bool) (v m : float) (k : string) :
  In k (od_keys
    (od_set (od_set (od_set (od_set d0
       (key_train_smiles i) (VStr sm))
       (key_train_is_antibiotic i) (VBool b))
       (key_train_vec_dist i) (VFloat v))
       (key_train_morgan_dist i) (VFloat m)))
  <-> In k (od_keys d0) \/ In k (train_keys i).
Proof.
  rewrite !od_keys_set. unfold train_keys. cbn [In]. intuition.
Qed.

Lemma fold_fields (L : locals) (vds mds : list float) (idx : list nat) :
  forall (s : nat) (d0 d : odict value),
    foldM (add_train_fields L vds mds)
      (combine (seq s (List.length idx)) idx) d0 = Ok d ->
    (forall k, (forall r, s <= r -> ~ In k (train_keys (r + 1))) ->
               od_find d k = od_find d0 k) /\
    (forall r j, nth_error idx r = Some j ->
       exists sm v m,
         nth_error (train_smiles L) j = Some sm /\
         nth_error vds (s + r) = Some v /\
         nth_error mds (s + r) = Some m /\
         rank_fields d (s + r + 1) sm (mem sm (antibiotics L)) v m) /\
    (forall k, In k (od_keys d) <->
               In k (od_keys d0) \/
               exists r, r < List.length idx /\ In k (train_keys (s + r + 1))).
Proof.
  induction idx as [|j0 idx IH]; intros s d0 d;
    cbn [List.length seq combine foldM].
  - intros H. inversion H; subst. split; [reflexivity|].
    split; [intros r j Hr; destruct r; discriminate|].
    intros k. split; [tauto|]. simpl.
    intros [H0|[r [Hr _]]]; [exact H0|lia].
  - destruct (add_train_fields L vds mds d0 (s, j0)) as [d1|e] eqn:E;
      cbn [rbind]; [|discriminate].
    intros H. apply add_train_fields_inv in E.
    destruct E as (sm & v & m & Hsm & Hv & Hm & Ed1).
    destruct (IH (S s) d1 d H) as [Hkeep [Hrank Hkeys]].
    assert (Hfar : forall k, In k (train_keys (s + 1)) ->
                   forall r, S s <= r -> ~ In k (train_keys (r + 1))).
    { intros k Hk r Hr Hk'.
      pose proof (train_keys_inj _ _ _ Hk Hk'). lia. }
    split; [|split].
    + intros k Hk. rewrite Hkeep by (intros r Hr; apply Hk; lia).
      rewrite Ed1. apply four_sets_other. apply Hk. lia.
    + intros r j Hr. destruct r as [|r]; simpl in Hr.
      * inversion Hr; subst j0. exists sm, v, m.
        rewrite Nat.add_0_r.
        split; [exact Hsm|]. split; [exact Hv|]. split; [exact Hm|].
        pose proof (four_sets_rank_fields d0 (s + 1) sm
                      (mem sm (antibiotics L)) v m) as Hf.
        rewrite <- Ed1 in Hf. unfold rank_fields in *.
        destruct Hf as (F1 & F2 & F3 & F4).
        repeat split.
        -- rewrite Hkeep; [exact F1|].
           apply Hfar. unfold train_keys. cbn [In]. tauto.
        -- rewrite Hkeep; [exact F2|].
           apply Hfar. unfold train_keys. cbn [In]. tauto.
        -- rewrite Hkeep; [exact F3|].
           apply Hfar. unfold train_keys. cbn [In]. tauto.
        -- rewrite Hkeep; [exact F4|].
           apply Hfar. unfold train_keys. cbn [In]. tauto.
      * destruct (Hrank r j Hr) as (sm' & v' & m' & H1 & H2 & H3 & H4).
        exists sm', v', m'.
        replace (s + S r) with (S s + r) by lia.
        split; [exact H1|]. split; [exact H2|]. split; [exact H3|exact H4].
    + intros k. rewrite Hkeys, Ed1, four_sets_keys. split.
      * intros [[H0|H0]|[r [Hr Hk]]].
        -- left. exact H0.
        -- right. exists 0. split; [lia|]. rewrite Nat.add_0_r. exact H0.
        -- right. exists (S r). split; [lia|].
           replace (s + S r + 1) with (S s + r + 1) by lia. exact Hk.
      * intros [H0|[r [Hr Hk]]].
        -- left. left. exact H0.
        -- destruct r as [|r].
           ++ left. right. rewrite Nat.add_0_r in Hk. exact Hk.
           ++ right. exists r. split; [lia|].
              replace (S s + r + 1) with (s + S r + 1) by lia. exact Hk.
Qed.
End Neighbor.

Section NeighborOf.
Context {N : NumLib}.

Lemma take_ok (a : list float) (idx : list nat) (vs : list float) :
  take a idx = Ok vs <-> Forall2 (fun j v => nth_error a j = Some v) idx vs.
Proof.
  unfold take. rewrite mapM_ok. split; intros H;
    (eapply Forall2_impl; [|exact H]); intros j v Hj; apply index_ok; exact Hj.
Qed.

Lemma base_fields (smiles : string) (b : bool) (pred x y : float) (n : Z) :
  let d0 :=
    od_set (od_set (od_set (od_set (od_set []
      "test_smiles" (VStr smiles)) "in_train" (VBool b))
      "test_pred" (VFloat pred)) (key_avg_vec n) (VFloat x))
      (key_avg_morgan n) (VFloat y) in
  od_find d0 "test_smiles" = Some (VStr smiles) /\
  od_find d0 "in_train" = Some (VBool b) /\
  od_find d0 "test_pred" = Some (VFloat pred) /\
  od_find d0 (key_avg_vec n) = Some (VFloat x) /\
  od_find d0 (key_avg_morgan n) = Some (VFloat y) /\
  (forall k, In k (od_keys d0) <->
             In k ["test_smiles"; "in_train"; "test_pred"; key_avg_vec n;
                   key_avg_morgan n]).
Proof.
  intros d0. subst d0.
  assert (Hb : forall k, In k ["test_smiles"; "in_train"; "test_pred"] ->
                         k <> key_avg_vec n /\ k <> key_avg_morgan n).
  { intros k Hk. split; intros E; subst k;
      (eapply avg_not_base; [|exact Hk]); cbn [In]; tauto. }
  split; [|split; [|split; [|split; [|split]]]].
  - destruct (Hb "test_smiles") as [H1 H2]; [cbn [In]; tauto|].
    rewrite !od_find_set_neq by assumption. reflexivity.
  - destruct (Hb "in_train") as [H1 H2]; [cbn [In]; tauto|].
    rewrite !od_find_set_neq by assumption. reflexivity.
  - destruct (Hb "test_pred") as [H1 H2]; [cbn [In]; tauto|].
    rewrite !od_find_set_neq by assumption. reflexivity.
  - rewrite od_find_set_neq by apply avg_vec_not_avg_morgan.
    apply od_find_set_eq.
  - apply od_find_set_eq.
  - intros k. rewrite !od_keys_set. cbn [od_keys map In]. intuition.
Qed.

Lemma neighbor_of_inv (L : locals) (i : nat) (d : odict value) :
  neighbor_of L i = Ok d ->
  exists row vrow mrow smiles preds pred vds mds,
    nth_error (dist_matrix L) i = Some row /\
    nth_error (test_train_vec_dist L) i = Some vrow /\
    nth_error (test_train_morgan_dist L) i = Some mrow /\
    nth_error (test_smiles L) i = Some smiles /\
    nth_error (test_preds L) i = Some preds /\
    nth_error preds 0 = Some pred /\
    Forall2 (fun j v => nth_error vrow j = Some v)
      (nearest_train row (num_neighbors L)) vds /\
    Forall2 (fun j m => nth_error mrow j = Some m)
      (nearest_train row (num_neighbors L)) mds /\
    od_find d "test_smiles" = Some (VStr smiles) /\
    od_find d "in_train" = Some (VBool (mem smiles (train_smiles L))) /\
    od_find d "test_pred" = Some (VFloat pred) /\
    od_find d (key_avg_vec (num_neighbors L)) = Some (VFloat (np_mean vds)) /\
    od_find d (key_avg_morgan (num_neighbors L))
    = Some (VFloat (np_mean mds)) /\
    (forall r j, nth_error (nearest_train row (num_neighbors L)) r = Some j ->
       exists sm v m,
         nth_error (train_smiles L) j = Some sm /\
         nth_error vrow j = Some v /\
         nth_error mrow j = Some m /\
         rank_fields d (r + 1) sm (mem sm (antibiotics L)) v m) /\
    (forall k, In k (od_keys d) <->
       In k ["test_smiles"; "in_train"; "test_pred";
             key_avg_vec (num_neighbors L); key_avg_morgan (num_neighbors L)]
       \/ exists r, r < List.length (nearest_train row (num_neighbors L)) /\
                    In k (train_keys (r + 1))).
Proof.
  unfold neighbor_of, enumerate.
  destruct (index (dist_matrix L) i) as [row|] eqn:Erow; [|discriminate].
  cbn [rbind].
  destruct (index (test_train_vec_dist L) i) as [vrow|] eqn:Ev;
    [|discriminate]. cbn [rbind].
  destruct (take vrow _) as [vds|] eqn:Evds; [|discriminate]. cbn [rbind].
  destruct (index (test_train_morgan_dist L) i) as [mrow|] eqn:Em;
    [|discriminate]. cbn [rbind].
  destruct (take mrow _) as [mds|] eqn:Emds; [|discriminate]. cbn [rbind].
  destruct (index (test_smiles L) i) as [smiles|] eqn:Es; [|discriminate].
  cbn [rbind].
  destruct (index (test_preds L) i) as [preds|] eqn:Ep; [|discriminate].
  cbn [rbind].
  destruct (index preds 0) as [pred|] eqn:Ep0; [|discriminate]. cbn [rbind].
  intros H.
  apply index_ok in Erow, Ev, Em, Es, Ep, Ep0.
  apply take_ok in Evds, Emds.
  apply fold_fields in H. destruct H as [Hkeep [Hrank Hkeys]].
  destruct (base_fields smiles (mem smiles (train_smiles L)) pred
              (np_mean vds) (np_mean mds) (num_neighbors L))
    as (B1 & B2 & B3 & B4 & B5 & B6).
  exists row, vrow, mrow, smiles, preds, pred, vds, mds.
  repeat (split; [assumption|]).
  split; [|split; [|split; [|split; [|split; [|split]]]]].
  - rewrite Hkeep; [exact B1|].
    intros r _. apply base_not_train_key. cbn [In]. tauto.
  - rewrite Hkeep; [exact B2|].
    intros r _. apply base_not_train_key. cbn [In]. tauto.
  - rewrite Hkeep; [exact B3|].
    intros r _. apply base_not_train_key. cbn [In]. tauto.
  - rewrite Hkeep; [exact B4|].
    intros r _. apply avg_not_train_key with (n := num_neighbors L).
    cbn [In]. tauto.
  - rewrite Hkeep; [exact B5|].
    intros r _. apply avg_not_train_key with (n := num_neighbors L).
    cbn [In]. tauto.
  - intros r j Hr. destruct (Hrank r j Hr) as (sm & v & m & H1 & H2 & H3 & H4).
    simpl in H2, H3, H4.
    destruct (Forall2_nth_error _ _ _ Evds r j Hr) as (v' & Hv' & Hjv).
    destruct (Forall2_nth_error _ _ _ Emds r j Hr) as (m' & Hm' & Hjm).
    rewrite Hv' in H2. inversion H2; subst v'.
    rewrite Hm' in H3. inversion H3; subst m'.
    exists sm, v, m. repeat (split; [assumption|]). exact H4.
  - intros k. rewrite Hkeys, B6. simpl. reflexivity.
Qed.
End NeighborOf.

(** ** The sort of line 87 *)

Section SortFacts.
Context {N : NumLib}.

Lemma map_snd_combine_eq {A B : Type} (l : list A) (l' : list B) :
  List.length l = List.length l' -> map snd (combine l l') = l'.
Proof.
  revert l'. induction l as [|a l IH]; intros [|b l']; simpl;
    intros H; try discriminate; [reflexivity|].
  rewrite IH by congruence. reflexivity.
Qed.

Lemma combine_keyed {A B : Type} (f : B -> result A) (ks : list A)
    (l : list B) :
  Forall2 (fun b k => f b = Ok k) l ks ->
  Forall (fun p => f (snd p) = Ok (fst p)) (combine ks l).
Proof.
  induction 1 as [|b k l ks Hb Hl IH]; simpl; constructor; assumption.
Qed.

Lemma filter_same_score (s : float) (Q : list (float * odict value)) :
  Forall (fun p => test_pred_of (snd p) = Ok (fst p)) Q ->
  filter (same_score s) (map snd Q) =
  map snd (filter (fun p => negb (lt s (fst p)) && negb (lt (fst p) s)) Q).
Proof.
  induction 1 as [|p Q Hp HQ IH]; simpl; [reflexivity|].
  unfold same_score at 1. rewrite Hp.
  destruct (negb (lt s (fst p)) && negb (lt (fst p) s)); simpl;
    rewrite IH; reflexivity.
Qed.

Lemma StronglySorted_nth {A : Type} (R : A -> A -> Prop) (l : list A) :
  StronglySorted R l ->
  forall i j a b, i < j -> nth_error l i = Some a -> nth_error l j = Some b ->
                  R a b.
Proof.
  induction 1 as [|x l Hs IH Hx]; intros i j a b Hij Hi Hj.
  - destruct i; discriminate.
  - destruct j as [|j]; [lia|]. simpl in Hj.
    destruct i as [|i]; simpl in Hi.
    + inversion Hi; subst x. rewrite Forall_forall in Hx. apply Hx.
      eapply nth_error_In. exact Hj.
    + apply (IH i j); [lia|assumption|assumption].
Qed.

Lemma sort_by_test_pred_inv (neighbors sorted : list (odict value)) :
  sort_by_test_pred neighbors = Ok sorted ->
  Permutation sorted neighbors /\
  Forall (fun d => exists x, test_pred_of d = Ok x) neighbors /\
  (strict_weak_order lt ->
   (forall i j d1 d2, i < j ->
      nth_error sorted i = Some d1 -> nth_error sorted j = Some d2 ->
      exists s1 s2, test_pred_of d1 = Ok s1 /\ test_pred_of d2 = Ok s2 /\
                    lt s1 s2 = false) /\
   (forall s, filter (same_score s) sorted = filter (same_score s) neighbors)).
Proof.
  unfold sort_by_test_pred.
  destruct (mapM test_pred_of neighbors) as [keys|] eqn:E; [|discriminate].
  cbn [rbind]. intros H. inversion H as [Hs]. clear H Hs.
  apply mapM_ok in E.
  pose proof (Forall2_length_eq _ _ _ E) as Hlen.
  pose proof (combine_keyed _ _ _ E) as Hkeyed.
  set (P := sort_reverse lt (combine keys neighbors)) in *.
  assert (HP : Permutation P (combine keys neighbors))
    by apply insertion_sort_perm.
  assert (HPk : Forall (fun p => test_pred_of (snd p) = Ok (fst p)) P).
  { eapply Permutation_Forall; [apply Permutation_sym; exact HP|exact Hkeyed]. }
  split; [|split].
  - eapply Permutation_trans; [apply Permutation_map; exact HP|].
    rewrite map_snd_combine_eq by congruence. apply Permutation_refl.
  - clear - E. induction E; constructor; eauto.
  - intros [Hasym Htrans]. split.
    + intros i j d1 d2 Hij H1 H2.
      rewrite nth_error_map in H1, H2.
      destruct (nth_error P i) as [[s1 d1']|] eqn:E1; [|discriminate].
      destruct (nth_error P j) as [[s2 d2']|] eqn:E2; [|discriminate].
      simpl in H1, H2. inversion H1; subst d1'. inversion H2; subst d2'.
      exists s1, s2.
      rewrite Forall_forall in HPk.
      pose proof (HPk _ (nth_error_In _ _ E1)) as K1.
      pose proof (HPk _ (nth_error_In _ _ E2)) as K2.
      simpl in K1, K2. split; [exact K1|]. split; [exact K2|].
      assert (Hsorted : StronglySorted
                (fun x y : float * odict value => lt (fst x) (fst y) = false)
                P).
      { apply insertion_sort_sorted.
        - intros x y z Hxy Hyz. eapply Htrans; eassumption.
        - intros x y Hb. apply negb_true_iff in Hb. exact Hb.
        - intros x y Hb. apply negb_false_iff in Hb. apply Hasym. exact Hb. }
      apply (StronglySorted_nth _ _ Hsorted i j (s1, d1) (s2, d2) Hij E1 E2).
    + intros s. rewrite filter_same_score by exact HPk.
      transitivity (filter (same_score s) (map snd (combine keys neighbors)));
        [|rewrite map_snd_combine_eq by congruence; reflexivity].
      rewrite filter_same_score by exact Hkeyed.
      f_equal. apply insertion_sort_filter.
      intros x y Hx Hy.
      apply andb_true_iff in Hx, Hy.
      destruct Hx as [Hx1 Hx2]. destruct Hy as [Hy1 Hy2].
      apply negb_true_iff in Hx1, Hx2, Hy1, Hy2.
      apply negb_true_iff. eapply Htrans; eassumption.
Qed.
End SortFacts.

(** ** A run that completes *)

Section Completed.
Context {N : NumLib} {C : Chemprop N}.

Lemma locals_of_inv (test_data train_data ab : list string) (dm : string)
    (k : Z) (L : locals) :
  locals_of test_data train_data ab dm k = Ok L ->
  test_smiles L = test_data /\ train_smiles L = train_data /\
  antibiotics L = ab /\ test_preds L = map predict test_data /\
  num_neighbors L = k /\
  test_train_morgan_dist L =
    map (fun u => map (fun v => jaccard u v)
                    (map morgan_fingerprint train_data))
      (map morgan_fingerprint test_data) /\
  test_train_vec_dist L =
    map (fun u => map (fun v => cosine u v)
                    (map compute_molecule_vectors train_data))
      (map compute_molecule_vectors test_data) /\
  ((dm = "vec" /\ dist_matrix L = test_train_vec_dist L) \/
   (dm = "morgan" /\ dist_matrix L = test_train_morgan_dist L)) /\
  test_data <> [] /\ train_data <> [].
Proof.
  unfold locals_of.
  destruct (cdist (map morgan_fingerprint test_data) _ Jaccard) as [md|] eqn:Em;
    [|discriminate]. cbn [rbind].
  destruct (cdist (map compute_molecule_vectors test_data) _ Cosine)
    as [vd|] eqn:Ev; [|discriminate]. cbn [rbind].
  destruct (select_dist_matrix dm vd md) as [dmx|] eqn:Es; [|discriminate].
  cbn [rbind]. intros H. inversion H; subst L; clear H. cbn.
  apply cdist_ok_inv in Em, Ev.
  destruct Em as (Em & Hte & Htr). destruct Ev as (Ev & _ & _).
  apply select_supported in Es.
  repeat (split; [reflexivity|]).
  split; [exact Em|]. split; [exact Ev|].
  split; [exact Es|].
  split; [intros E; apply Hte; rewrite E; reflexivity|].
  intros E; apply Htr; rewrite E; reflexivity.
Qed.

Lemma run_inv (test_data train_data ab : list string) (dm save_path : string)
    (k : Z) (t : list event) :
  find_similar_preds test_data train_data ab dm save_path k = (t, Ok tt) ->
  exists L neighbors first rest,
    locals_of test_data train_data ab dm k = Ok L /\
    find_neighbors L (List.length test_data) = Ok neighbors /\
    sort_by_test_pred neighbors = Ok (first :: rest) /\
    t = before_save ++
        [EPrint "Saving distances"; EOpen save_path;
         EWriteHeader (od_keys first)] ++
        map EWriteRow (first :: rest) /\
    written t = first :: rest.
Proof.
  rewrite run_stages. unfold locals_of.
  destruct (cdist (map morgan_fingerprint test_data) _ Jaccard) as [md|];
    [|intros H; inversion H]. cbn [rbind].
  destruct (cdist (map compute_molecule_vectors test_data) _ Cosine) as [vd|];
    [|intros H; inversion H]. cbn [rbind].
  destruct (select_dist_matrix dm vd md) as [dmx|]; [|intros H; inversion H].
  cbn [rbind].
  destruct (find_neighbors _ _) as [neighbors|] eqn:En;
    [|intros H; inversion H].
  destruct (sort_by_test_pred neighbors) as [sorted|] eqn:Es;
    [|intros H; inversion H].
  destruct sorted as [|first rest].
  - rewrite save_empty. intros H. inversion H.
  - rewrite save_cons.
    destruct (forM_ (first :: rest) (writerow (od_keys first))) as [t' r] eqn:Ef.
    intros H. inversion H; subst t r; clear H.
    apply forM_writerow_inv in Ef. subst t'.
    eexists. exists neighbors, first, rest.
    split; [reflexivity|]. split; [exact En|]. split; [exact Es|].
    split; [reflexivity|].
    exact (written_map_rows (first :: rest)).
Qed.

Lemma find_neighbors_nth (L : locals) (n : nat)
    (neighbors : list (odict value)) :
  find_neighbors L n = Ok neighbors ->
  List.length neighbors = n /\
  forall i, i < n ->
    exists d, nth_error neighbors i = Some d /\ neighbor_of L i = Ok d.
Proof.
  unfold find_neighbors. intros H. apply mapM_ok in H.
  pose proof (Forall2_length_eq _ _ _ H) as Hlen. rewrite length_seq in Hlen.
  split; [congruence|]. intros i Hi.
  destruct (Forall2_nth_error _ _ _ H i i) as (d & Hd & Hn).
  - rewrite nth_error_seq. destruct (Nat.ltb_spec i n); [reflexivity|lia].
  - exists d. split; assumption.
Qed.
End Completed.

(** ** The report *)

(** C7: when the script completes, the dictionary of every test molecule [i]
    holds, under the two average keys, the mean of the entries of row [i] of
    the vector distance matrix, and of the fingerprint distance matrix, at
    the indices selected for [i]; this is so for either distance measure. *)
Theorem averages_over_selected (N : NumLib) (C : Chemprop N)
    (test_data train_data ab : list string) (dm save_path : string) (k : Z)
    (t : list event) :
  find_similar_preds test_data train_data ab dm save_path k = (t, Ok tt) ->
  exists L neighbors,
    locals_of test_data train_data ab dm k = Ok L /\
    find_neighbors L (List.length test_data) = Ok neighbors /\
    Permutation (written t) neighbors /\
    forall i, i < List.length test_data ->
      exists d smiles row vds mds,
        nth_error neighbors i = Some d /\
        nth_error test_data i = Some smiles /\
        od_find d "test_smiles" = Some (VStr smiles) /\
        nth_error (dist_matrix L) i = Some row /\
        Forall2 (fun j v => entry (test_train_vec_dist L) i j = Some v)
          (nearest_train row k) vds /\
        Forall2 (fun j m => entry (test_train_morgan_dist L) i j = Some m)
          (nearest_train row k) mds /\
        od_find d (key_avg_vec k) = Some (VFloat (np_mean vds)) /\
        od_find d (key_avg_morgan k) = Some (VFloat (np_mean mds)).
Proof.
  intros Hrun. apply run_inv in Hrun.
  destruct Hrun as (L & neighbors & first & rest & HL & Hn & Hs & _ & Hw).
  apply sort_by_test_pred_inv in Hs. destruct Hs as (Hperm & _ & _).
  exists L, neighbors. rewrite Hw.
  split; [exact HL|]. split; [exact Hn|]. split; [exact Hperm|].
  intros i Hi.
  destruct (find_neighbors_nth _ _ _ Hn) as [_ Hnth].
  destruct (Hnth i Hi) as (d & Hd & Hof).
  apply neighbor_of_inv in Hof.
  destruct Hof as (row & vrow & mrow & smiles & preds & pred & vds & mds &
                   Hrow & Hvrow & Hmrow & Hsm & _ & _ & Hvds & Hmds &
                   F1 & _ & _ & F4 & F5 & _).
  apply locals_of_inv in HL.
  destruct HL as (Hts & _ & _ & _ & Hk & _).
  rewrite Hts in Hsm. rewrite Hk in *.
  exists d, smiles, row, vds, mds.
  repeat (split; [assumption|]).
  split; [|split; [|split; assumption]].
  - eapply Forall2_impl; [|exact Hvds]. intros j v Hj.
    unfold entry. rewrite Hvrow. exact Hj.
  - eapply Forall2_impl; [|exact Hmds]. intros j m Hj.
    unfold entry. rewrite Hmrow. exact Hj.
Qed.

(** C9: when the script completes, in the dictionary of every test molecule
    [i] the four fields of rank [r + 1] are those of one training molecule,
    the one whose index [j] is at place [r] of the selection: its SMILES
    string, its membership in the antibiotics, and the entries [(i, j)] of the
    vector and of the fingerprint distance matrices. *)
Theorem rank_fields_of_selected (N : NumLib) (C : Chemprop N)
    (test_data train_data ab : list string) (dm save_path : string) (k : Z)
    (t : list event) :
  find_similar_preds test_data train_data ab dm save_path k = (t, Ok tt) ->
  exists L neighbors,
    locals_of test_data train_data ab dm k = Ok L /\
    find_neighbors L (List.length test_data) = Ok neighbors /\
    Permutation (written t) neighbors /\
    forall i, i < List.length test_data ->
      exists d row,
        nth_error neighbors i = Some d /\
        nth_error (dist_matrix L) i = Some row /\
        forall r j, nth_error (nearest_train row k) r = Some j ->
          exists sm v m,
            nth_error train_data j = Some sm /\
            entry (test_train_vec_dist L) i j = Some v /\
            entry (test_train_morgan_dist L) i j = Some m /\
            rank_fields d (r + 1) sm (mem sm ab) v m.
Proof.
  intros Hrun. apply run_inv in Hrun.
  destruct Hrun as (L & neighbors & first & rest & HL & Hn & Hs & _ & Hw).
  apply sort_by_test_pred_inv in Hs. destruct Hs as (Hperm & _ & _).
  exists L, neighbors. rewrite Hw.
  split; [exact HL|]. split; [exact Hn|]. split; [exact Hperm|].
  intros i Hi.
  destruct (find_neighbors_nth _ _ _ Hn) as [_ Hnth].
  destruct (Hnth i Hi) as (d & Hd & Hof).
  apply neighbor_of_inv in Hof.
  destruct Hof as (row & vrow & mrow & smiles & preds & pred & vds & mds &
                   Hrow & Hvrow & Hmrow & _ & _ & _ & _ & _ &
                   _ & _ & _ & _ & _ & Hrank & _).
  apply locals_of_inv in HL.
  destruct HL as (_ & Htr & Hab & _ & Hk & _).
  rewrite Htr, Hab, Hk in *.
  exists d, row. split; [exact Hd|]. split; [exact Hrow|].
  intros r j Hr. destruct (Hrank r j Hr) as (sm & v & m & H1 & H2 & H3 & H4).
  exists sm, v, m. split; [exact H1|].
  unfold entry. rewrite Hvrow, Hmrow.
  split; [exact H2|]. split; [exact H3|exact H4].
Qed.

(** ** The prediction that is reported *)

Section FirstPrediction.
Context {N : NumLib}.

Lemma first_pred_lookup {B : Type} (f g : string -> list float)
    (test_data : list string) (i : nat) (k : float -> result B) :
  (forall s, hd_error (f s) = hd_error (g s)) ->
  (preds <- index (map f test_data) i ;; pred <- index preds 0 ;; k pred)%result
  = (preds <- index (map g test_data) i ;; pred <- index preds 0 ;; k pred)%result.
Proof.
  intros H. unfold index. rewrite !nth_error_map.
  destruct (nth_error test_data i) as [s|]; simpl; [|reflexivity].
  specialize (H s). destruct (f s), (g s); simpl in *;
    inversion H; reflexivity.
Qed.

Lemma neighbor_of_first_pred (ts tr ab : list string) (f g : string -> list float)
    (md vd dmx : matrix) (k : Z) (i : nat) :
  (forall s, hd_error (f s) = hd_error (g s)) ->
  neighbor_of (Build_locals ts tr ab (map f ts) md vd dmx k) i =
  neighbor_of (Build_locals ts tr ab (map g ts) md vd dmx k) i.
Proof.
  intros H. unfold neighbor_of.
  cbn [test_smiles train_smiles antibiotics test_preds test_train_morgan_dist
       test_train_vec_dist dist_matrix num_neighbors].
  destruct (index dmx i) as [row|]; [|reflexivity]. cbn [rbind].
  destruct (index vd i) as [vrow|]; [|reflexivity]. cbn [rbind].
  destruct (take vrow _) as [vds|]; [|reflexivity]. cbn [rbind].
  destruct (index md i) as [mrow|]; [|reflexivity]. cbn [rbind].
  destruct (take mrow _) as [mds|]; [|reflexivity]. cbn [rbind].
  destruct (index ts i) as [smiles|]; [|reflexivity]. cbn [rbind].
  apply first_pred_lookup. exact H.
Qed.

Lemma find_neighbors_first_pred (ts tr ab : list string)
    (f g : string -> list float) (md vd dmx : matrix) (k : Z) (n : nat) :
  (forall s, hd_error (f s) = hd_error (g s)) ->
  find_neighbors (Build_locals ts tr ab (map f ts) md vd dmx k) n =
  find_neighbors (Build_locals ts tr ab (map g ts) md vd dmx k) n.
Proof.
  intros H. unfold find_neighbors. generalize (seq 0 n) as l.
  induction l as [|i l IH]; simpl; [reflexivity|].
  rewrite (neighbor_of_first_pred ts tr ab f g) by exact H.
  rewrite IH. reflexivity.
Qed.
End FirstPrediction.

(** C10: when the script completes, the [test_pred] of the dictionary of
    every test molecule, which is also its sort key, is the first component
    of the prediction of that molecule; and the whole run is the same for two
    models whose predictions differ only after the first component. *)
Theorem test_pred_is_first_prediction (N : NumLib) (C C' : Chemprop N)
    (test_data train_data ab : list string) (dm save_path : string) (k : Z) :
  (forall s, @morgan_fingerprint N C' s = @morgan_fingerprint N C s) ->
  (forall s, @compute_molecule_vectors N C' s
             = @compute_molecule_vectors N C s) ->
  (forall s, hd_error (@predict N C' s) = hd_error (@predict N C s)) ->
  @find_similar_preds N C' test_data train_data ab dm save_path k =
  @find_similar_preds N C test_data train_data ab dm save_path k /\
  forall t,
    @find_similar_preds N C test_data train_data ab dm save_path k
    = (t, Ok tt) ->
    exists L neighbors,
      @locals_of N C test_data train_data ab dm k = Ok L /\
      find_neighbors L (List.length test_data) = Ok neighbors /\
      Permutation (written t) neighbors /\
      forall i, i < List.length test_data ->
        exists d smiles pred rest,
          nth_error neighbors i = Some d /\
          nth_error test_data i = Some smiles /\
          od_find d "test_smiles" = Some (VStr smiles) /\
          @predict N C smiles = pred :: rest /\
          od_find d "test_pred" = Some (VFloat pred) /\
          test_pred_of d = Ok pred.
Proof.
  intros Hfp Hvec Hpred. split.
  - rewrite !run_stages.
    rewrite (map_ext _ _ Hfp test_data), (map_ext _ _ Hfp train_data).
    rewrite (map_ext _ _ Hvec test_data), (map_ext _ _ Hvec train_data).
    destruct (cdist _ _ Jaccard) as [md|]; [|reflexivity].
    destruct (cdist _ _ Cosine) as [vd|]; [|reflexivity].
    destruct (select_dist_matrix dm vd md) as [dmx|]; [|reflexivity].
    rewrite (find_neighbors_first_pred test_data train_data ab
               (@predict N C') (@predict N C)) by exact Hpred.
    reflexivity.
  - intros t Hrun. apply run_inv in Hrun.
    destruct Hrun as (L & neighbors & first & rest & HL & Hn & Hs & _ & Hw).
    apply sort_by_test_pred_inv in Hs. destruct Hs as (Hperm & _ & _).
    exists L, neighbors. rewrite Hw.
    split; [exact HL|]. split; [exact Hn|]. split; [exact Hperm|].
    intros i Hi.
    destruct (find_neighbors_nth _ _ _ Hn) as [_ Hnth].
    destruct (Hnth i Hi) as (d & Hd & Hof).
    apply neighbor_of_inv in Hof.
    destruct Hof as (row & vrow & mrow & smiles & preds & pred & vds & mds &
                     _ & _ & _ & Hsm & Hp & Hp0 & _ & _ &
                     F1 & _ & F3 & _).
    apply locals_of_inv in HL.
    destruct HL as (Hts & _ & _ & Htp & _).
    rewrite Hts in Hsm. rewrite Htp, nth_error_map, Hsm in Hp.
    simpl in Hp. inversion Hp; subst preds.
    destruct (predict smiles) as [|p ps] eqn:Ep; [discriminate|].
    simpl in Hp0. inversion Hp0; subst p.
    exists d, smiles, pred, ps.
    split; [exact Hd|]. split; [exact Hsm|]. split; [exact F1|].
    split; [exact Ep|]. split; [exact F3|].
    unfold test_pred_of, od_get. rewrite F3. reflexivity.
Qed.

(** ** Inputs on which the script completes *)

Lemma mapM_total {A B : Type} (f : A -> result B) (l : list A) :
  Forall (fun a => exists b, f a = Ok b) l -> exists bs, mapM f l = Ok bs.
Proof.
  induction 1 as [|a l [b Hb] Hl [bs IH]]; simpl.
  - eexists. reflexivity.
  - rewrite Hb. simpl. rewrite IH. simpl. eexists. reflexivity.
Qed.

Lemma Forall2_in_r {A B : Type} (R : A -> B -> Prop) (l : list A)
    (l' : list B) (b : B) :
  Forall2 R l l' -> In b l' -> exists a, In a l /\ R a b.
Proof.
  induction 1 as [|x y l l' Hxy Hl IH]; intros Hb; [destruct Hb|].
  destruct Hb as [Hb|Hb].
  - subst y. exists x. split; [left; reflexivity | exact Hxy].
  - destruct (IH Hb) as (a & Ha & HR). exists a. split; [right|]; assumption.
Qed.

Section Completes.
Context {N : NumLib} {C : Chemprop N}.

Lemma shape2_map {A : Type} (f : A -> list float) (l : list A) (d : nat) :
  l <> [] -> Forall (fun s => List.length (f s) = d) l ->
  shape2 (map f l) = Some (List.length l, d).
Proof.
  intros Hne Hall. destruct l as [|a l]; [contradiction|].
  inversion Hall as [|? ? Ha Hl]; subst. cbn [map shape2].
  assert (E : forallb (fun r' => Nat.eqb (List.length r') (List.length (f a)))
                (map f l) = true).
  { apply forallb_forall. intros r Hr. apply in_map_iff in Hr.
    destruct Hr as (s & <- & Hs). rewrite Forall_forall in Hl.
    rewrite (Hl s Hs). apply Nat.eqb_refl. }
  rewrite E. simpl. rewrite length_map. reflexivity.
Qed.

Lemma cdist_total {A : Type} (f : A -> list float) (l l' : list A)
    (m : metric) :
  l <> [] -> l' <> [] ->
  (exists d, Forall (fun s => List.length (f s) = d) (l ++ l')) ->
  cdist (map f l) (map f l') m =
  Ok (map (fun u => map (fun v => metric_fun m u v) (map f l')) (map f l)).
Proof.
  intros Hl Hl' [d Hd]. apply Forall_app in Hd. destruct Hd as [H1 H2].
  unfold cdist.
  rewrite (shape2_map f l d Hl H1), (shape2_map f l' d Hl' H2).
  rewrite Nat.eqb_refl. reflexivity.
Qed.

Lemma take_total (a : list float) (idx : list nat) :
  (forall j, In j idx -> j < List.length a) -> exists vs, take a idx = Ok vs.
Proof.
  intros H. apply mapM_total. rewrite Forall_forall. intros j Hj.
  unfold index. destruct (nth_error a j) as [v|] eqn:E; [eauto|].
  apply nth_error_None in E. specialize (H j Hj). lia.
Qed.

Lemma fold_fields_total (L : locals) (vds mds : list float) (idx : list nat) :
  (forall j, In j idx -> j < List.length (train_smiles L)) ->
  forall (s : nat) (d0 : odict value),
    s + List.length idx <= List.length vds ->
    s + List.length idx <= List.length mds ->
    exists d,
      foldM (add_train_fields L vds mds)
        (combine (seq s (List.length idx)) idx) d0 = Ok d.
Proof.
  induction idx as [|j0 idx IH]; intros Hin s d0 Hv Hm;
    cbn [List.length seq combine foldM].
  - eexists. reflexivity.
  - cbn [List.length] in Hv, Hm.
    unfold add_train_fields at 1. unfold index.
    destruct (nth_error (train_smiles L) j0) as [sm|] eqn:E1.
    2:{ apply nth_error_None in E1.
        specialize (Hin j0 (or_introl eq_refl)). lia. }
    destruct (nth_error vds s) as [v|] eqn:E2.
    2:{ apply nth_error_None in E2. lia. }
    destruct (nth_error mds s) as [m|] eqn:E3.
    2:{ apply nth_error_None in E3. lia. }
    cbn [rbind]. apply IH.
    + intros j Hj. apply Hin. right. exact Hj.
    + lia.
    + lia.
Qed.

Lemma neighbor_of_total (L : locals) (i : nat)
    (row vrow mrow : list float) (smiles : string) (p : float)
    (ps : list float) :
  argsort_permutes N ->
  nth_error (dist_matrix L) i = Some row ->
  nth_error (test_train_vec_dist L) i = Some vrow ->
  nth_error (test_train_morgan_dist L) i = Some mrow ->
  List.length row = List.length (train_smiles L) ->
  List.length vrow = List.length (train_smiles L) ->
  List.length mrow = List.length (train_smiles L) ->
  nth_error (test_smiles L) i = Some smiles ->
  nth_error (test_preds L) i = Some (p :: ps) ->
  exists d, neighbor_of L i = Ok d.
Proof.
  intros Hperm Hrow Hvrow Hmrow Lr Lv Lm Hs Hp.
  assert (Hin : forall j, In j (nearest_train row (num_neighbors L)) ->
                          j < List.length (train_smiles L)).
  { intros j Hj. rewrite <- Lr. eapply nearest_incl; eassumption. }
  destruct (take_total vrow (nearest_train row (num_neighbors L))) as [vds Hvds].
  { intros j Hj. rewrite Lv. apply Hin. exact Hj. }
  destruct (take_total mrow (nearest_train row (num_neighbors L))) as [mds Hmds].
  { intros j Hj. rewrite Lm. apply Hin. exact Hj. }
  unfold neighbor_of, enumerate.
  apply index_ok in Hrow, Hvrow, Hmrow, Hs, Hp.
  rewrite Hrow. cbn [rbind]. rewrite Hvrow. cbn [rbind].
  rewrite Hvds. cbn [rbind]. rewrite Hmrow. cbn [rbind].
  rewrite Hmds. cbn [rbind]. rewrite Hs. cbn [rbind].
  rewrite Hp. cbn [rbind index nth_error].
  apply take_ok in Hvds, Hmds.
  apply Forall2_length_eq in Hvds, Hmds.
  apply fold_fields_total; [exact Hin | lia | lia].
Qed.

Lemma matrix_row {A : Type} (g : list float -> list float -> float)
    (f : A -> list float) (l l' : list A) (i : nat) (a : A) :
  nth_error l i = Some a ->
  nth_error (map (fun u => map (fun v => g u v) (map f l')) (map f l)) i
  = Some (map (fun v => g (f a) v) (map f l')).
Proof.
  intros H. rewrite nth_error_map, nth_error_map, H. reflexivity.
Qed.

Lemma find_neighbors_total (test_data train_data ab : list string)
    (dm : string) (k : Z) (L : locals) :
  argsort_permutes N ->
  Forall (fun s => predict s <> []) test_data ->
  locals_of test_data train_data ab dm k = Ok L ->
  (forall i row, nth_error (dist_matrix L) i = Some row ->
                 List.length row = List.length train_data) /\
  exists neighbors, find_neighbors L (List.length test_data) = Ok neighbors.
Proof.
  intros Hperm Hpred HL. apply locals_of_inv in HL.
  destruct HL as (Hts & Htr & Hab & Htp & Hk & Hmd & Hvd & Hdm & _ & _).
  assert (Hrows : forall (g : list float -> list float -> float) (i : nat)
                         (row : list float),
            nth_error (map (fun u => map (fun v => g u v)
                         (map compute_molecule_vectors train_data))
                         (map compute_molecule_vectors test_data)) i = Some row
            \/ nth_error (map (fun u => map (fun v => g u v)
                         (map morgan_fingerprint train_data))
                         (map morgan_fingerprint test_data)) i = Some row ->
            List.length row = List.length train_data).
  { intros g i row [H|H]; rewrite nth_error_map in H;
      destruct (nth_error _ i); inversion H; rewrite !length_map; reflexivity. }
  assert (Hlen : forall i row, nth_error (dist_matrix L) i = Some row ->
                               List.length row = List.length train_data).
  { intros i row H. destruct Hdm as [[_ E]|[_ E]]; rewrite E in H.
    - rewrite Hvd in H. eapply Hrows. left. exact H.
    - rewrite Hmd in H. eapply Hrows. right. exact H. }
  split; [exact Hlen|].
  unfold find_neighbors. apply mapM_total. rewrite Forall_forall.
  intros i Hi. apply in_seq in Hi.
  destruct (nth_error test_data i) as [smiles|] eqn:Es.
  2:{ apply nth_error_None in Es. lia. }
  assert (Hv : nth_error (test_train_vec_dist L) i
               = Some (map (fun v => cosine (compute_molecule_vectors smiles) v)
                         (map compute_molecule_vectors train_data))).
  { rewrite Hvd. apply matrix_row. exact Es. }
  assert (Hm : nth_error (test_train_morgan_dist L) i
               = Some (map (fun v => jaccard (morgan_fingerprint smiles) v)
                         (map morgan_fingerprint train_data))).
  { rewrite Hmd. apply matrix_row. exact Es. }
  assert (Hd : exists row, nth_error (dist_matrix L) i = Some row).
  { destruct Hdm as [[_ E]|[_ E]]; rewrite E; eauto. }
  destruct Hd as [row Hrow].
  destruct (predict smiles) as [|p ps] eqn:Ep.
  { rewrite Forall_forall in Hpred. exfalso.
    apply (Hpred smiles); [eapply nth_error_In; exact Es | exact Ep]. }
  eapply neighbor_of_total with (row := row) (smiles := smiles) (p := p)
                                (ps := ps).
  - exact Hperm.
  - exact Hrow.
  - exact Hv.
  - exact Hm.
  - rewrite Htr. eapply Hlen. exact Hrow.
  - rewrite Htr, !length_map. reflexivity.
  - rewrite Htr, !length_map. reflexivity.
  - rewrite Hts. exact Es.
  - rewrite Htp, nth_error_map, Es. simpl. rewrite Ep. reflexivity.
Qed.
End Completes.

Section CompletesRun.
Context {N : NumLib} {C : Chemprop N}.

Lemma neighbors_same_keys (L : locals) (n m : nat)
    (neighbors : list (odict value)) :
  argsort_permutes N ->
  find_neighbors L n = Ok neighbors ->
  (forall i row, nth_error (dist_matrix L) i = Some row ->
                 List.length row = m) ->
  forall d d', In d neighbors -> In d' neighbors ->
    forall k, In k (od_keys d) -> In k (od_keys d').
Proof.
  intros Hperm Hn Hrows d d' Hd Hd' k Hk.
  unfold find_neighbors in Hn. apply mapM_ok in Hn.
  destruct (Forall2_in_r _ _ _ _ Hn Hd) as (i & _ & Hi).
  destruct (Forall2_in_r _ _ _ _ Hn Hd') as (i' & _ & Hi').
  apply neighbor_of_inv in Hi, Hi'.
  destruct Hi as (row & ? & ? & ? & ? & ? & ? & ? & Hrow & _ & _ & _ & _ & _ &
                  _ & _ & _ & _ & _ & _ & _ & _ & Hkeys).
  destruct Hi' as (row' & ? & ? & ? & ? & ? & ? & ? & Hrow' & _ & _ & _ & _ &
                   _ & _ & _ & _ & _ & _ & _ & _ & _ & Hkeys').
  apply Hkeys'. apply Hkeys in Hk.
  destruct Hk as [Hk|(r & Hr & Hk)]; [left; exact Hk|].
  right. exists r. split; [|exact Hk].
  rewrite nearest_length in * by exact Hperm.
  rewrite (Hrows _ _ Hrow) in Hr. rewrite (Hrows _ _ Hrow'). exact Hr.
Qed.

Lemma locals_of_total (test_data train_data ab : list string) (dm : string)
    (k : Z) :
  well_formed C test_data train_data ->
  dm = "vec" \/ dm = "morgan" ->
  exists md vd dmx,
    cdist (map morgan_fingerprint test_data)
      (map morgan_fingerprint train_data) Jaccard = Ok md /\
    cdist (map compute_molecule_vectors test_data)
      (map compute_molecule_vectors train_data) Cosine = Ok vd /\
    select_dist_matrix dm vd md = Ok dmx /\
    locals_of test_data train_data ab dm k =
    Ok (Build_locals test_data train_data ab (map predict test_data)
          md vd dmx k).
Proof.
  intros (Hte & Htr & Hfp & Hvec & _) Hdm.
  pose proof (cdist_total morgan_fingerprint test_data train_data Jaccard
                Hte Htr Hfp) as Hm.
  pose proof (cdist_total compute_molecule_vectors test_data train_data Cosine
                Hte Htr Hvec) as Hv.
  eexists. eexists.
  assert (Hs : exists dmx,
            select_dist_matrix dm
              (map (fun u => map (fun v => metric_fun Cosine u v)
                      (map compute_molecule_vectors train_data))
                 (map compute_molecule_vectors test_data))
              (map (fun u => map (fun v => metric_fun Jaccard u v)
                      (map morgan_fingerprint train_data))
                 (map morgan_fingerprint test_data)) = Ok dmx).
  { destruct Hdm as [-> | ->]; eexists; reflexivity. }
  destruct Hs as [dmx Hs]. exists dmx.
  split; [exact Hm|]. split; [exact Hv|]. split; [exact Hs|].
  unfold locals_of. rewrite Hm. cbn [rbind]. rewrite Hv. cbn [rbind].
  rewrite Hs. reflexivity.
Qed.

(** On well-formed inputs, with a supported measure and whatever the
    neighbour count, the script completes and hands one row per test
    molecule to the writer. *)
Lemma run_completes (test_data train_data ab : list string)
    (dm save_path : string) (k : Z) :
  argsort_permutes N ->
  well_formed C test_data train_data ->
  dm = "vec" \/ dm = "morgan" ->
  exists t,
    find_similar_preds test_data train_data ab dm save_path k = (t, Ok tt) /\
    List.length (written t) = List.length test_data.
Proof.
  intros Hperm Hwf Hdm.
  destruct (locals_of_total test_data train_data ab dm k Hwf Hdm)
    as (md & vd & dmx & Hm & Hv & Hs & HL).
  destruct Hwf as (Hte & _ & _ & _ & Hpred).
  destruct (find_neighbors_total _ _ _ _ _ _ Hperm Hpred HL)
    as [Hrows [neighbors Hn]].
  assert (Hkeys : Forall (fun d => exists x, test_pred_of d = Ok x) neighbors).
  { rewrite Forall_forall. intros d Hd.
    pose proof Hn as Hn'. unfold find_neighbors in Hn'. apply mapM_ok in Hn'.
    destruct (Forall2_in_r _ _ _ _ Hn' Hd) as (i & _ & Hi).
    apply neighbor_of_inv in Hi.
    destruct Hi as (? & ? & ? & ? & ? & pred & ? & ? & _ & _ & _ & _ & _ & _ &
                    _ & _ & _ & _ & F3 & _).
    exists pred. unfold test_pred_of, od_get. rewrite F3. reflexivity. }
  destruct (mapM_total _ _ Hkeys) as [keys Hk].
  assert (Hsort : sort_by_test_pred neighbors
                  = Ok (map snd (sort_reverse lt (combine keys neighbors)))).
  { unfold sort_by_test_pred. rewrite Hk. reflexivity. }
  destruct (sort_by_test_pred_inv _ _ Hsort) as (Hp & _ & _).
  destruct (find_neighbors_nth _ _ _ Hn) as [Hlen _].
  set (sorted := map snd (sort_reverse lt (combine keys neighbors))) in *.
  assert (Hsl : List.length sorted = List.length test_data).
  { rewrite (Permutation_length Hp). exact Hlen. }
  destruct sorted as [|first rest] eqn:Esorted.
  { destruct test_data; [contradiction|discriminate]. }
  assert (Hall : Forall (fun d => forallb (fun k => mem k (od_keys first))
                                    (od_keys d) = true) (first :: rest)).
  { rewrite Forall_forall. intros d Hd. apply forallb_forall. intros key Hkey.
    apply mem_true_iff.
    eapply (neighbors_same_keys _ _ _ _ Hperm Hn Hrows d first).
    - eapply Permutation_in; [exact Hp | exact Hd].
    - eapply Permutation_in; [exact Hp | left; reflexivity].
    - exact Hkey. }
  eexists. split.
  - rewrite run_stages, Hm, Hv, Hs, Hn, Hsort, save_cons.
    rewrite (forM_writerow_all _ _ Hall). reflexivity.
  - rewrite !written_app, written_map_rows. exact Hsl.
Qed.
End CompletesRun.

Lemma dist_matrix_rows (N : NumLib) (C : Chemprop N)
    (test_data train_data ab : list string) (dm : string) (k : Z)
    (L : locals) :
  locals_of test_data train_data ab dm k = Ok L ->
  List.length (dist_matrix L) = List.length test_data /\
  forall i row, nth_error (dist_matrix L) i = Some row ->
                List.length row = List.length train_data.
Proof.
  intros HL. apply locals_of_inv in HL.
  destruct HL as (_ & _ & _ & _ & _ & Hmd & Hvd & Hdm & _ & _).
  destruct Hdm as [[_ E]|[_ E]]; rewrite E; [rewrite Hvd|rewrite Hmd];
    (split; [rewrite !length_map; reflexivity|]);
    intros i row H; rewrite nth_error_map in H;
    destruct (nth_error _ i); inversion H; rewrite !length_map; reflexivity.
Qed.

(** C8: when the neighbour count is at least the size of the training set,
    the selection for every test molecule holds every index of the training
    set once, and no index twice. *)
Theorem all_training_indices_selected (N : NumLib) (C : Chemprop N)
    (test_data train_data ab : list string) (dm : string) (k : Z)
    (L : locals) :
  argsort_permutes N ->
  locals_of test_data train_data ab dm k = Ok L ->
  (Z.of_nat (List.length train_data) <= k)%Z ->
  forall i, i < List.length test_data ->
    exists row,
      nth_error (dist_matrix L) i = Some row /\
      Permutation (nearest_train row k) (seq 0 (List.length train_data)) /\
      NoDup (nearest_train row k).
Proof.
  intros Hperm HL Hk i Hi.
  destruct (dist_matrix_rows N C _ _ _ _ _ _ HL) as [Hlen Hrows].
  destruct (nth_error (dist_matrix L) i) as [row|] eqn:E.
  2:{ apply nth_error_None in E. lia. }
  exists row. split; [reflexivity|].
  pose proof (Hrows i row E) as Hr.
  assert (Hp : Permutation (nearest_train row k) (seq 0 (List.length train_data))).
  { rewrite nearest_all by (try exact Hperm; lia).
    rewrite <- Hr. apply Hperm. }
  split; [exact Hp|].
  eapply Permutation_NoDup; [apply Permutation_sym; exact Hp|].
  apply seq_NoDup.
Qed.

Lemma all_training_indices_selected_witness :
  exists row,
    nth_error
      [[@cosine Zlib (demo_vector "A") (demo_vector "B");
        @cosine Zlib (demo_vector "A") (demo_vector "C")]] 0 = Some row /\
    Permutation (@nearest_train Zlib row 5) (seq 0 2) /\
    NoDup (@nearest_train Zlib row 5).
Proof.
  apply (all_training_indices_selected Zlib demo ["A"] ["B"; "C"] ["B"] "vec" 5
           (@Build_locals Zlib ["A"] ["B"; "C"] ["B"] [[90%Z]]
              [[50%Z; 100%Z]] [[0%Z; 100%Z]] [[0%Z; 100%Z]] 5)
           Zlib_argsort_permutes).
  - reflexivity.
  - simpl. lia.
  - simpl. lia.
Defined.

(** C4 (as the code has it): a neighbour count that is zero or negative is
    not refused. On well-formed inputs with a supported measure the script
    completes and hands one row per test molecule to the writer; a row has the
    five fields of the test molecule and the fields of as many ranks as the
    slice of line 64 keeps: none for zero, and for a negative count the size
    of the training set less its absolute value. *)
Theorem nonpositive_count_completes (N : NumLib) (C : Chemprop N)
    (test_data train_data ab : list string) (dm save_path : string) (k : Z) :
  argsort_permutes N ->
  well_formed C test_data train_data ->
  dm = "vec" \/ dm = "morgan" ->
  (k <= 0)%Z ->
  exists t,
    find_similar_preds test_data train_data ab dm save_path k = (t, Ok tt) /\
    List.length (written t) = List.length test_data /\
    forall d, In d (written t) ->
      forall key, In key (od_keys d) <->
        In key ["test_smiles"; "in_train"; "test_pred"; key_avg_vec k;
                key_avg_morgan k] \/
        exists r,
          r < (if (k =? 0)%Z then 0
               else List.length train_data - Z.to_nat (- k)) /\
          In key (train_keys (r + 1)).
Proof.
  intros Hperm Hwf Hdm Hk.
  destruct (run_completes test_data train_data ab dm save_path k
              Hperm Hwf Hdm) as (t & Hrun & Hlen).
  exists t. split; [exact Hrun|]. split; [exact Hlen|].
  apply run_inv in Hrun.
  destruct Hrun as (L & neighbors & first & rest & HL & Hn & Hs & _ & Hw).
  apply sort_by_test_pred_inv in Hs. destruct Hs as (Hp & _ & _).
  rewrite Hw. intros d Hd.
  apply (Permutation_in _ Hp) in Hd.
  unfold find_neighbors in Hn. apply mapM_ok in Hn.
  destruct (Forall2_in_r _ _ _ _ Hn Hd) as (i & _ & Hi).
  apply neighbor_of_inv in Hi.
  destruct Hi as (row & ? & ? & ? & ? & ? & ? & ? & Hrow & _ & _ & _ & _ & _ &
                  _ & _ & _ & _ & _ & _ & _ & _ & Hkeys).
  destruct (dist_matrix_rows N C _ _ _ _ _ _ HL) as [_ Hrows].
  apply locals_of_inv in HL. destruct HL as (_ & _ & _ & _ & Hnn & _).
  rewrite Hnn in Hkeys. clear Hnn.
  intros key. rewrite Hkeys.
  rewrite nearest_length by exact Hperm.
  rewrite (Hrows _ _ Hrow).
  destruct (k =? 0)%Z eqn:E0.
  - apply Z.eqb_eq in E0. subst k. simpl. reflexivity.
  - apply Z.eqb_neq in E0.
    destruct (0 <=? k)%Z eqn:E1; [apply Z.leb_le in E1; lia|].
    reflexivity.
Qed.

Lemma demo_well_formed : well_formed demo ["A"] ["B"; "C"].
Proof.
  split; [discriminate|]. split; [discriminate|].
  split; [exists 4; repeat constructor|].
  split; [exists 2; repeat constructor|].
  repeat constructor. discriminate.
Qed.

Lemma nonpositive_count_completes_witness :
  exists t,
    @find_similar_preds Zlib demo ["A"] ["B"; "C"] ["B"] "morgan" "out.csv"
      (-1) = (t, Ok tt) /\
    List.length (written t) = 1 /\
    forall d, In d (written t) ->
      forall key, In key (od_keys d) <->
        In key ["test_smiles"; "in_train"; "test_pred"; key_avg_vec (-1);
                key_avg_morgan (-1)] \/
        exists r, r < 1 /\ In key (train_keys (r + 1)).
Proof.
  apply (nonpositive_count_completes Zlib demo ["A"] ["B"; "C"] ["B"]
           "morgan" "out.csv" (-1) Zlib_argsort_permutes demo_well_formed).
  - right. reflexivity.
  - lia.
Defined.

(** C4 fails as stated: with a neighbour count of zero the script raises no
    error; it writes a row that has the five fields of the test molecule and
    no neighbour. *)
Lemma zero_count_counterexample :
  let run :=
    @find_similar_preds Zlib demo ["A"] ["B"; "C"] ["B"] "vec" "out.csv" 0 in
  snd run = Ok tt /\
  map od_keys (written (fst run)) =
  [["test_smiles"; "in_train"; "test_pred"; "train_0_avg_vec_cosine_dist";
    "train_0_avg_morgan_jaccard_dist"]].
Proof. split; reflexivity. Qed.

(** ** The properties on a run *)

Example demo_run_completes : snd demo_run = Ok tt.
Proof. reflexivity. Qed.

Example demo_run_order :
  map (fun d => od_find d "test_smiles") (written (fst demo_run)) =
  [Some (@VStr Zlib "A"); Some (@VStr Zlib "D"); Some (@VStr Zlib "C");
   Some (@VStr Zlib "B")].
Proof. reflexivity. Qed.

Lemma averages_over_selected_witness :
  exists L neighbors,
    @locals_of Zlib demo ["C"; "A"; "D"; "B"] ["B"; "C"] ["B"] "vec" 2 = Ok L /\
    find_neighbors L 4 = Ok neighbors /\
    Permutation (written (fst demo_run)) neighbors /\
    forall i, i < 4 ->
      exists d smiles row vds mds,
        nth_error neighbors i = Some d /\
        nth_error ["C"; "A"; "D"; "B"] i = Some smiles /\
        od_find d "test_smiles" = Some (VStr smiles) /\
        nth_error (dist_matrix L) i = Some row /\
        Forall2 (fun j v => entry (test_train_vec_dist L) i j = Some v)
          (nearest_train row 2) vds /\
        Forall2 (fun j m => entry (test_train_morgan_dist L) i j = Some m)
          (nearest_train row 2) mds /\
        od_find d (key_avg_vec 2) = Some (VFloat (np_mean vds)) /\
        od_find d (key_avg_morgan 2) = Some (VFloat (np_mean mds)).
Proof.
  apply (averages_over_selected Zlib demo ["C"; "A"; "D"; "B"] ["B"; "C"]
           ["B"] "vec" "out.csv" 2 (fst demo_run)).
  reflexivity.
Defined.

Lemma rank_fields_of_selected_witness :
  exists L neighbors,
    @locals_of Zlib demo ["C"; "A"; "D"; "B"] ["B"; "C"] ["B"] "vec" 2 = Ok L /\
    find_neighbors L 4 = Ok neighbors /\
    Permutation (written (fst demo_run)) neighbors /\
    forall i, i < 4 ->
      exists d row,
        nth_error neighbors i = Some d /\
        nth_error (dist_matrix L) i = Some row /\
        forall r j, nth_error (nearest_train row 2) r = Some j ->
          exists sm v m,
            nth_error ["B"; "C"] j = Some sm /\
            entry (test_train_vec_dist L) i j = Some v /\
            entry (test_train_morgan_dist L) i j = Some m /\
            rank_fields d (r + 1) sm (mem sm ["B"]) v m.
Proof.
  apply (rank_fields_of_selected Zlib demo ["C"; "A"; "D"; "B"] ["B"; "C"]
           ["B"] "vec" "out.csv" 2 (fst demo_run)).
  reflexivity.
Defined.

Lemma demo_first_agrees (s : string) :
  hd_error (@predict Zlib demo_first s) = hd_error (@predict Zlib demo s).
Proof.
  simpl. unfold demo_predict.
  destruct (String.eqb s "A"); [reflexivity|].
  destruct (String.eqb s "D"); reflexivity.
Qed.

Lemma test_pred_is_first_prediction_witness :
  @find_similar_preds Zlib demo_first ["C"; "A"; "D"; "B"] ["B"; "C"] ["B"]
    "vec" "out.csv" 2 = demo_run /\
  exists L neighbors,
    @locals_of Zlib demo ["C"; "A"; "D"; "B"] ["B"; "C"] ["B"] "vec" 2
    = Ok L /\
    find_neighbors L 4 = Ok neighbors /\
    Permutation (written (fst demo_run)) neighbors /\
    forall i, i < 4 ->
      exists d smiles pred rest,
        nth_error neighbors i = Some d /\
        nth_error ["C"; "A"; "D"; "B"] i = Some smiles /\
        od_find d "test_smiles" = Some (VStr smiles) /\
        @predict Zlib demo smiles = pred :: rest /\
        od_find d "test_pred" = Some (VFloat pred) /\
        test_pred_of d = Ok pred.
Proof.
  destruct (test_pred_is_first_prediction Zlib demo demo_first
              ["C"; "A"; "D"; "B"] ["B"; "C"] ["B"] "vec" "out.csv" 2
              (fun s => eq_refl) (fun s => eq_refl) demo_first_agrees)
    as [Hsame Hrows].
  split; [exact Hsame|].
  apply (Hrows (fst demo_run)). reflexivity.
Defined.

(** * Further properties of the script *)

(** ** The exceptions the stages raise *)

Lemma index_raise {A : Type} (l : list A) (i : nat) (e : exn) :
  index l i = Raise e -> e = IndexError "index out of range".
Proof.
  unfold index. destruct (nth_error l i); intros H; inversion H; reflexivity.
Qed.

Lemma mapM_raise {A B : Type} (f : A -> result B) (l : list A) (e : exn) :
  mapM f l = Raise e -> exists a, In a l /\ f a = Raise e.
Proof.
  induction l as [|a l IH]; simpl; [discriminate|].
  destruct (f a) as [b|e'] eqn:E; simpl.
  - destruct (mapM f l) as [bs|e'']; simpl; [discriminate|].
    intros H. inversion H; subst e''.
    destruct (IH eq_refl) as (a' & Ha & Hf). exists a'. split; [right|]; assumption.
  - intros H. inversion H; subst e'. exists a. split; [left; reflexivity|exact E].
Qed.

Lemma foldM_raise {A B : Type} (f : B -> A -> result B) (l : list A) (b : B)
    (e : exn) :
  foldM f l b = Raise e -> exists a b', In a l /\ f b' a = Raise e.
Proof.
  revert b. induction l as [|a l IH]; intros b; simpl; [discriminate|].
  destruct (f b a) as [b1|e'] eqn:E; simpl.
  - intros H. destruct (IH b1 H) as (a' & b' & Ha & Hf).
    exists a', b'. split; [right|]; assumption.
  - intros H. inversion H; subst e'. exists a, b.
    split; [left; reflexivity|exact E].
Qed.

Section Raises.
Context {N : NumLib} {C : Chemprop N}.

Lemma take_raise (a : list float) (idx : list nat) (e : exn) :
  take a idx = Raise e -> e = IndexError "index out of range".
Proof.
  unfold take. intros H. apply mapM_raise in H.
  destruct H as (j & _ & Hj). eapply index_raise. exact Hj.
Qed.

Lemma add_train_fields_raise (L : locals) (vds mds : list float)
    (d : odict value) (it : nat * nat) (e : exn) :
  add_train_fields L vds mds d it = Raise e ->
  e = IndexError "index out of range".
Proof.
  destruct it as [i j]. unfold add_train_fields.
  destruct (index (train_smiles L) j) as [sm|e1] eqn:E1; cbn [rbind].
  2:{ intros H. inversion H; subst e1. eapply index_raise. exact E1. }
  destruct (index vds i) as [v|e2] eqn:E2; cbn [rbind].
  2:{ intros H. inversion H; subst e2. eapply index_raise. exact E2. }
  destruct (index mds i) as [m|e3] eqn:E3; cbn [rbind].
  2:{ intros H. inversion H; subst e3. eapply index_raise. exact E3. }
  discriminate.
Qed.

Lemma neighbor_of_raise (L : locals) (i : nat) (e : exn) :
  neighbor_of L i = Raise e -> e = IndexError "index out of range".
Proof.
  unfold neighbor_of.
  destruct (index (dist_matrix L) i) as [row|e0] eqn:E0; cbn [rbind].
  2:{ intros H. inversion H; subst e0. eapply index_raise. exact E0. }
  destruct (index (test_train_vec_dist L) i) as [vrow|e1] eqn:E1; cbn [rbind].
  2:{ intros H. inversion H; subst e1. eapply index_raise. exact E1. }
  destruct (take vrow _) as [vds|e2] eqn:E2; cbn [rbind].
  2:{ intros H. inversion H; subst e2. eapply take_raise. exact E2. }
  destruct (index (test_train_morgan_dist L) i) as [mrow|e3] eqn:E3;
    cbn [rbind].
  2:{ intros H. inversion H; subst e3. eapply index_raise. exact E3. }
  destruct (take mrow _) as [mds|e4] eqn:E4; cbn [rbind].
  2:{ intros H. inversion H; subst e4. eapply take_raise. exact E4. }
  destruct (index (test_smiles L) i) as [smiles|e5] eqn:E5; cbn [rbind].
  2:{ intros H. inversion H; subst e5. eapply index_raise. exact E5. }
  destruct (index (test_preds L) i) as [preds|e6] eqn:E6; cbn [rbind].
  2:{ intros H. inversion H; subst e6. eapply index_raise. exact E6. }
  destruct (index preds 0) as [pred|e7] eqn:E7; cbn [rbind].
  2:{ intros H. inversion H; subst e7. eapply index_raise. exact E7. }
  intros H. apply foldM_raise in H. destruct H as (it & d' & _ & H).
  eapply add_train_fields_raise. exact H.
Qed.

Lemma find_neighbors_raise (L : locals) (n : nat) (e : exn) :
  find_neighbors L n = Raise e -> e = IndexError "index out of range".
Proof.
  unfold find_neighbors. intros H. apply mapM_raise in H.
  destruct H as (i & _ & Hi). eapply neighbor_of_raise. exact Hi.
Qed.

(** The sort key is in every dictionary of the loop, so line 87 does not
    raise. *)
Lemma sort_after_find_neighbors (L : locals) (n : nat)
    (neighbors : list (odict value)) :
  find_neighbors L n = Ok neighbors ->
  exists sorted, sort_by_test_pred neighbors = Ok sorted /\
                 Permutation sorted neighbors.
Proof.
  intros Hn.
  assert (Hkeys : Forall (fun d => exists x, test_pred_of d = Ok x) neighbors).
  { rewrite Forall_forall. intros d Hd.
    unfold find_neighbors in Hn. apply mapM_ok in Hn.
    destruct (Forall2_in_r _ _ _ _ Hn Hd) as (i & _ & Hi).
    apply neighbor_of_inv in Hi.
    destruct Hi as (? & ? & ? & ? & ? & pred & ? & ? & _ & _ & _ & _ & _ & _ &
                    _ & _ & _ & _ & F3 & _).
    exists pred. unfold test_pred_of, od_get. rewrite F3. reflexivity. }
  destruct (mapM_total _ _ Hkeys) as [keys Hk].
  assert (Hsort : sort_by_test_pred neighbors
                  = Ok (map snd (sort_reverse lt (combine keys neighbors)))).
  { unfold sort_by_test_pred. rewrite Hk. reflexivity. }
  eexists. split; [exact Hsort|].
  apply (sort_by_test_pred_inv _ _ Hsort).
Qed.

Lemma forM_writerow_raise (fieldnames : list string) (l : list (odict value))
    (t : list event) (e : exn) :
  forM_ l (writerow fieldnames) = (t, Raise e) ->
  e = ValueError "dict contains fields not in fieldnames".
Proof.
  revert t. induction l as [|d l IH]; intros t; simpl.
  - unfold ret. intros H. inversion H.
  - unfold writerow at 1.
    destruct (forallb (fun k => mem k fieldnames) (od_keys d)).
    + unfold emit, bind.
      destruct (forM_ l (writerow fieldnames)) as [t' r] eqn:E.
      intros H. inversion H; subst. eapply IH. reflexivity.
    + unfold lift, bind. intros H. inversion H. reflexivity.
Qed.
End Raises.

Section AfterLoop.
Context {N : NumLib} {C : Chemprop N}.

Lemma locals_of_stages (test_data train_data ab : list string) (dm : string)
    (k : Z) (md vd dmx : matrix) :
  cdist (map morgan_fingerprint test_data)
    (map morgan_fingerprint train_data) Jaccard = Ok md ->
  cdist (map compute_molecule_vectors test_data)
    (map compute_molecule_vectors train_data) Cosine = Ok vd ->
  select_dist_matrix dm vd md = Ok dmx ->
  locals_of test_data train_data ab dm k =
  Ok (Build_locals test_data train_data ab (map predict test_data)
        md vd dmx k).
Proof.
  intros Hm Hv Hs. unfold locals_of. rewrite Hm. cbn [rbind].
  rewrite Hv. cbn [rbind]. rewrite Hs. reflexivity.
Qed.

(** When [np.argsort] returns a permutation, all the dictionaries of the loop
    have the keys of the first one, so the writer refuses no row. *)
Lemma save_after_loop (test_data train_data ab : list string)
    (dm save_path : string) (k : Z) (L : locals)
    (neighbors sorted : list (odict value)) :
  argsort_permutes N ->
  locals_of test_data train_data ab dm k = Ok L ->
  find_neighbors L (List.length test_data) = Ok neighbors ->
  sort_by_test_pred neighbors = Ok sorted ->
  exists first rest,
    sorted = first :: rest /\
    save save_path sorted =
    ([EPrint "Saving distances"; EOpen save_path; EWriteHeader (od_keys first)]
     ++ map EWriteRow sorted, Ok tt).
Proof.
  intros Hperm HL Hn Hs.
  destruct (dist_matrix_rows N C _ _ _ _ _ _ HL) as [_ Hrows].
  apply locals_of_inv in HL.
  destruct HL as (_ & _ & _ & _ & _ & _ & _ & _ & Hte & _).
  destruct (sort_by_test_pred_inv _ _ Hs) as (Hp & _ & _).
  destruct (find_neighbors_nth _ _ _ Hn) as [Hlen _].
  destruct sorted as [|first rest].
  { apply Permutation_length in Hp. simpl in Hp.
    destruct test_data; [contradiction|]. simpl in Hlen. lia. }
  exists first, rest. split; [reflexivity|].
  assert (Hall : Forall (fun d => forallb (fun key => mem key (od_keys first))
                                    (od_keys d) = true) (first :: rest)).
  { rewrite Forall_forall. intros d Hd. apply forallb_forall. intros key Hkey.
    apply mem_true_iff.
    eapply (neighbors_same_keys _ _ _ _ Hperm Hn Hrows d first).
    - eapply Permutation_in; [exact Hp | exact Hd].
    - eapply Permutation_in; [exact Hp | left; reflexivity].
    - exact Hkey. }
  rewrite save_cons, (forM_writerow_all _ _ Hall). reflexivity.
Qed.
End AfterLoop.

(** X5: whatever the inputs, a run that raises raises a ValueError (from
    [cdist], from the check of the distance measure or from the writer) or an
    IndexError (from an index that is out of range); it raises neither a
    KeyError nor a TypeError, the sort key being in every dictionary. *)
Theorem run_raises_ValueError_or_IndexError (N : NumLib) (C : Chemprop N)
    (test_data train_data ab : list string) (dm save_path : string) (k : Z)
    (t : list event) (e : exn) :
  find_similar_preds test_data train_data ab dm save_path k = (t, Raise e) ->
  (exists msg, e = ValueError msg) \/ (exists msg, e = IndexError msg).
Proof.
  rewrite run_stages.
  destruct (cdist (map morgan_fingerprint test_data) _ Jaccard) as [md|e1] eqn:Em.
  2:{ intros H. inversion H; subst. left.
      eapply cdist_raises_ValueError. exact Em. }
  destruct (cdist (map compute_molecule_vectors test_data) _ Cosine)
    as [vd|e2] eqn:Ev.
  2:{ intros H. inversion H; subst. left.
      eapply cdist_raises_ValueError. exact Ev. }
  destruct (select_dist_matrix dm vd md) as [dmx|e3] eqn:Es.
  2:{ intros H. inversion H; subst. left. unfold select_dist_matrix in Es.
      destruct (String.eqb dm "vec"); [discriminate|].
      destruct (String.eqb dm "morgan"); [discriminate|].
      inversion Es. eauto. }
  destruct (find_neighbors _ _) as [neighbors|e4] eqn:En.
  2:{ intros H. inversion H; subst. right.
      apply find_neighbors_raise in En. eauto. }
  destruct (sort_after_find_neighbors _ _ _ En) as (sorted & Hs & _).
  rewrite Hs. destruct sorted as [|first rest].
  - rewrite save_empty. intros H. inversion H. right. eauto.
  - rewrite save_cons.
    destruct (forM_ (first :: rest) (writerow (od_keys first))) as [t' r] eqn:Ef.
    intros H. inversion H; subst. apply forM_writerow_raise in Ef. left. eauto.
Qed.

Lemma run_raises_ValueError_or_IndexError_witness :
  (exists msg, IndexError "index out of range" = ValueError msg) \/
  (exists msg, IndexError "index out of range" = IndexError msg).
Proof.
  apply (run_raises_ValueError_or_IndexError Zlib demo_no_pred
           ["A"; "E"] ["B"; "C"] ["B"] "vec" "out.csv" 2
           (@before_save Zlib)).
  reflexivity.
Defined.

(** X6: when [np.argsort] returns a permutation of the indices of its row,
    a run that raises has not touched the output file: the file is opened
    only when every row can be written. *)
Theorem raising_run_leaves_no_file (N : NumLib) (C : Chemprop N)
    (test_data train_data ab : list string) (dm save_path : string) (k : Z)
    (t : list event) (e : exn) :
  argsort_permutes N ->
  find_similar_preds test_data train_data ab dm save_path k = (t, Raise e) ->
  forallb (fun ev => negb (file_event ev)) t = true /\ written t = [].
Proof.
  intros Hperm. rewrite run_stages.
  destruct (cdist (map morgan_fingerprint test_data) _ Jaccard) as [md|e1] eqn:Em.
  2:{ intros H. inversion H; subst. split; reflexivity. }
  destruct (cdist (map compute_molecule_vectors test_data) _ Cosine)
    as [vd|e2] eqn:Ev.
  2:{ intros H. inversion H; subst. split; reflexivity. }
  destruct (select_dist_matrix dm vd md) as [dmx|e3] eqn:Es.
  2:{ intros H. inversion H; subst. split; reflexivity. }
  destruct (find_neighbors _ _) as [neighbors|e4] eqn:En.
  2:{ intros H. inversion H; subst. split; reflexivity. }
  destruct (sort_after_find_neighbors _ _ _ En) as (sorted & Hs & _).
  rewrite Hs.
  pose proof (locals_of_stages test_data train_data ab dm k md vd dmx Em Ev Es)
    as HL.
  destruct (save_after_loop _ _ _ _ save_path _ _ _ _ Hperm HL En Hs)
    as (first & rest & _ & Hsave).
  rewrite Hsave. intros H. inversion H.
Qed.

Lemma raising_run_leaves_no_file_witness :
  forallb (fun ev => negb (@file_event Zlib ev)) (@before_save Zlib) = true /\
  @written Zlib (@before_save Zlib) = [].
Proof.
  apply (raising_run_leaves_no_file Zlib demo_no_pred
           ["A"; "E"] ["B"; "C"] ["B"] "vec" "out.csv" 2
           (@before_save Zlib) (IndexError "index out of range")
           Zlib_argsort_permutes).
  reflexivity.
Defined.

(** X1: a run that completes opens the output file once, after all the
    computation, writes the header once and then one row for every test
    molecule (at least one), and makes no other call. *)
Theorem completed_run_trace (N : NumLib) (C : Chemprop N)
    (test_data train_data ab : list string) (dm save_path : string) (k : Z)
    (t : list event) :
  find_similar_preds test_data train_data ab dm save_path k = (t, Ok tt) ->
  exists first rest,
    written t = first :: rest /\
    List.length (written t) = List.length test_data /\
    t = before_save ++
        [EPrint "Saving distances"; EOpen save_path;
         EWriteHeader (od_keys first)] ++
        map EWriteRow (written t).
Proof.
  intros Hrun. apply run_inv in Hrun.
  destruct Hrun as (L & neighbors & first & rest & HL & Hn & Hs & Ht & Hw).
  exists first, rest. rewrite Hw. split; [reflexivity|].
  split; [|exact Ht].
  apply sort_by_test_pred_inv in Hs. destruct Hs as (Hp & _).
  rewrite (Permutation_length Hp).
  apply (find_neighbors_nth _ _ _ Hn).
Qed.

Lemma completed_run_trace_witness :
  exists first rest,
    written (fst demo_run) = first :: rest /\
    List.length (written (fst demo_run)) = 4 /\
    fst demo_run =
    before_save ++
    [EPrint "Saving distances"; EOpen "out.csv";
     EWriteHeader (od_keys first)] ++
    map EWriteRow (written (fst demo_run)).
Proof.
  apply (completed_run_trace Zlib demo ["C"; "A"; "D"; "B"] ["B"; "C"] ["B"]
           "vec" "out.csv" 2 (fst demo_run)).
  reflexivity.
Defined.

(** ** The inputs on which the script completes *)

Section WellFormed.
Context {N : NumLib} {C : Chemprop N}.

Lemma shape2_map_inv {A : Type} (f : A -> list float) (l : list A)
    (n d : nat) :
  shape2 (map f l) = Some (n, d) ->
  l <> [] /\ Forall (fun s => List.length (f s) = d) l.
Proof.
  destruct l as [|a l]; [discriminate|]. cbn [map shape2].
  destruct (forallb _ (map f l)) eqn:E; [|discriminate].
  intros H. inversion H; subst. split; [discriminate|].
  constructor; [reflexivity|].
  rewrite forallb_forall in E. rewrite Forall_forall. intros s Hs.
  apply Nat.eqb_eq. apply E. apply in_map. exact Hs.
Qed.

Lemma cdist_ok_shapes {A : Type} (f : A -> list float) (l l' : list A)
    (m : metric) (D : matrix) :
  cdist (map f l) (map f l') m = Ok D ->
  l <> [] /\ l' <> [] /\
  exists d, Forall (fun s => List.length (f s) = d) (l ++ l').
Proof.
  unfold cdist.
  destruct (shape2 (map f l)) as [[nA dA]|] eqn:EA; [|discriminate].
  destruct (shape2 (map f l')) as [[nB dB]|] eqn:EB; [|discriminate].
  destruct (Nat.eqb dA dB) eqn:E; [|discriminate]. intros _.
  apply Nat.eqb_eq in E. subst dB.
  apply shape2_map_inv in EA, EB.
  destruct EA as [H1 F1]. destruct EB as [H2 F2].
  split; [exact H1|]. split; [exact H2|].
  exists dA. apply Forall_app. split; assumption.
Qed.

Lemma locals_of_ok_stages (test_data train_data ab : list string)
    (dm : string) (k : Z) (L : locals) :
  locals_of test_data train_data ab dm k = Ok L ->
  exists md vd dmx,
    cdist (map morgan_fingerprint test_data)
      (map morgan_fingerprint train_data) Jaccard = Ok md /\
    cdist (map compute_molecule_vectors test_data)
      (map compute_molecule_vectors train_data) Cosine = Ok vd /\
    select_dist_matrix dm vd md = Ok dmx /\
    L = Build_locals test_data train_data ab (map predict test_data)
          md vd dmx k.
Proof.
  unfold locals_of.
  destruct (cdist (map morgan_fingerprint test_data) _ Jaccard) as [md|] eqn:Em;
    [|discriminate]. cbn [rbind].
  destruct (cdist (map compute_molecule_vectors test_data) _ Cosine)
    as [vd|] eqn:Ev; [|discriminate]. cbn [rbind].
  destruct (select_dist_matrix dm vd md) as [dmx|] eqn:Es; [|discriminate].
  cbn [rbind]. intros H. inversion H. exists md, vd, dmx.
  split; [reflexivity|]. split; [reflexivity|]. split; [exact Es|reflexivity].
Qed.

Lemma find_neighbors_predictions (test_data train_data ab : list string)
    (dm : string) (k : Z) (L : locals) (neighbors : list (odict value)) :
  locals_of test_data train_data ab dm k = Ok L ->
  find_neighbors L (List.length test_data) = Ok neighbors ->
  Forall (fun s => predict s <> []) test_data.
Proof.
  intros HL Hn. rewrite Forall_forall. intros s Hs.
  destruct (In_nth_error _ _ Hs) as [i Hi].
  assert (Hlt : i < List.length test_data).
  { apply nth_error_Some. rewrite Hi. discriminate. }
  destruct (find_neighbors_nth _ _ _ Hn) as [_ Hnth].
  destruct (Hnth i Hlt) as (d & _ & Hof).
  apply neighbor_of_inv in Hof.
  destruct Hof as (? & ? & ? & ? & preds & pred & ? & ? &
                   _ & _ & _ & _ & Hp & Hp0 & _).
  apply locals_of_inv in HL. destruct HL as (_ & _ & _ & Htp & _).
  rewrite Htp, nth_error_map, Hi in Hp. simpl in Hp.
  inversion Hp; subst preds. intros E. rewrite E in Hp0. discriminate.
Qed.
End WellFormed.

(** X7: when [np.argsort] returns a permutation of the indices of its row,
    the script completes exactly on the inputs that have molecules in both
    sets, fingerprints of one length, vectors of one length and a prediction
    for every test molecule, with the measure "vec" or "morgan"; the neighbour
    count, the antibiotics and the path play no part. *)
Theorem completes_iff_well_formed (N : NumLib) (C : Chemprop N)
    (test_data train_data ab : list string) (dm save_path : string) (k : Z) :
  argsort_permutes N ->
  (exists t,
     find_similar_preds test_data train_data ab dm save_path k = (t, Ok tt))
  <-> well_formed C test_data train_data /\ (dm = "vec" \/ dm = "morgan").
Proof.
  intros Hperm. split.
  - intros [t Hrun]. apply run_inv in Hrun.
    destruct Hrun as (L & neighbors & first & rest & HL & Hn & _).
    pose proof (find_neighbors_predictions _ _ _ _ _ _ _ HL Hn) as Hpred.
    destruct (locals_of_ok_stages _ _ _ _ _ _ HL)
      as (md & vd & dmx & Hm & Hv & Hs & _).
    apply cdist_ok_shapes in Hm, Hv.
    destruct Hm as (Hte & Htr & Hfp). destruct Hv as (_ & _ & Hvec).
    apply select_supported in Hs.
    split.
    + split; [exact Hte|]. split; [exact Htr|]. split; [exact Hfp|].
      split; [exact Hvec|exact Hpred].
    + destruct Hs as [[H _]|[H _]]; [left|right]; exact H.
  - intros [Hwf Hdm].
    destruct (run_completes test_data train_data ab dm save_path k
                Hperm Hwf Hdm) as (t & Hrun & _).
    exists t. exact Hrun.
Qed.

Lemma completes_iff_well_formed_witness :
  (exists t,
     @find_similar_preds Zlib demo ["A"] ["B"; "C"] ["B"] "morgan" "out.csv" 7
     = (t, Ok tt))
  <-> well_formed demo ["A"] ["B"; "C"] /\
      ("morgan" = "vec" \/ "morgan" = "morgan").
Proof.
  apply (completes_iff_well_formed Zlib demo ["A"] ["B"; "C"] ["B"]
           "morgan" "out.csv" 7).
  exact Zlib_argsort_permutes.
Defined.

(** X8: when the distances can be computed and the measure is supported, a
    test molecule whose prediction is empty makes the run raise an IndexError
    in the neighbour loop (line 74), before the output file is opened. *)
Theorem empty_prediction_raises (N : NumLib) (C : Chemprop N)
    (test_data train_data ab : list string) (dm save_path : string) (k : Z)
    (L : locals) (s : string) :
  locals_of test_data train_data ab dm k = Ok L ->
  In s test_data -> predict s = [] ->
  find_similar_preds test_data train_data ab dm save_path k =
  (before_save, Raise (IndexError "index out of range")).
Proof.
  intros HL Hs Hp.
  destruct (locals_of_ok_stages _ _ _ _ _ _ HL)
    as (md & vd & dmx & Hm & Hv & Hsel & EL).
  rewrite run_stages, Hm, Hv, Hsel. rewrite <- EL.
  destruct (find_neighbors L (List.length test_data)) as [neighbors|e] eqn:En.
  - exfalso.
    pose proof (find_neighbors_predictions _ _ _ _ _ _ _ HL En) as Hall.
    rewrite Forall_forall in Hall. exact (Hall s Hs Hp).
  - apply find_neighbors_raise in En. subst e. reflexivity.
Qed.

Lemma empty_prediction_raises_witness :
  @find_similar_preds Zlib demo_no_pred ["A"; "E"] ["B"; "C"] ["B"] "vec"
    "out.csv" 2 =
  (before_save, Raise (IndexError "index out of range")).
Proof.
  eapply (empty_prediction_raises Zlib demo_no_pred ["A"; "E"] ["B"; "C"]
            ["B"] "vec" "out.csv" 2 _ "E").
  - reflexivity.
  - simpl. tauto.
  - reflexivity.
Defined.

(** X3: when the script completes, the [in_train] field of the dictionary of
    a test molecule is true exactly when its SMILES string is one of the
    SMILES strings of the training set, whatever the distances. *)
Theorem in_train_is_membership (N : NumLib) (C : Chemprop N)
    (test_data train_data ab : list string) (dm save_path : string) (k : Z)
    (t : list event) :
  find_similar_preds test_data train_data ab dm save_path k = (t, Ok tt) ->
  exists L neighbors,
    locals_of test_data train_data ab dm k = Ok L /\
    find_neighbors L (List.length test_data) = Ok neighbors /\
    Permutation (written t) neighbors /\
    forall i, i < List.length test_data ->
      exists d smiles b,
        nth_error neighbors i = Some d /\
        nth_error test_data i = Some smiles /\
        od_find d "test_smiles" = Some (VStr smiles) /\
        od_find d "in_train" = Some (VBool b) /\
        (b = true <-> In smiles train_data).
Proof.
  intros Hrun. apply run_inv in Hrun.
  destruct Hrun as (L & neighbors & first & rest & HL & Hn & Hs & _ & Hw).
  apply sort_by_test_pred_inv in Hs. destruct Hs as (Hperm & _ & _).
  exists L, neighbors. rewrite Hw.
  split; [exact HL|]. split; [exact Hn|]. split; [exact Hperm|].
  intros i Hi.
  destruct (find_neighbors_nth _ _ _ Hn) as [_ Hnth].
  destruct (Hnth i Hi) as (d & Hd & Hof).
  apply neighbor_of_inv in Hof.
  destruct Hof as (? & ? & ? & smiles & ? & ? & ? & ? &
                   _ & _ & _ & Hsm & _ & _ & _ & _ &
                   F1 & F2 & _).
  apply locals_of_inv in HL. destruct HL as (Hts & Htr & _).
  rewrite Hts in Hsm. rewrite Htr in F2.
  exists d, smiles, (mem smiles train_data).
  split; [exact Hd|]. split; [exact Hsm|]. split; [exact F1|].
  split; [exact F2|]. apply mem_true_iff.
Qed.

Lemma in_train_is_membership_witness :
  exists L neighbors,
    @locals_of Zlib demo ["C"; "A"; "D"; "B"] ["B"; "C"] ["B"] "vec" 2 = Ok L /\
    find_neighbors L 4 = Ok neighbors /\
    Permutation (written (fst demo_run)) neighbors /\
    forall i, i < 4 ->
      exists d smiles b,
        nth_error neighbors i = Some d /\
        nth_error ["C"; "A"; "D"; "B"] i = Some smiles /\
        od_find d "test_smiles" = Some (VStr smiles) /\
        od_find d "in_train" = Some (VBool b) /\
        (b = true <-> In smiles ["B"; "C"]).
Proof.
  apply (in_train_is_membership Zlib demo ["C"; "A"; "D"; "B"] ["B"; "C"]
           ["B"] "vec" "out.csv" 2 (fst demo_run)).
  reflexivity.
Defined.

(** ** The distances of a row, rank after rank *)

Lemma Forall2_nth_error_r {A B : Type} (R : A -> B -> Prop) (l : list A)
    (l' : list B) :
  Forall2 R l l' ->
  forall i b, nth_error l' i = Some b ->
              exists a, nth_error l i = Some a /\ R a b.
Proof.
  induction 1 as [|x y l l' Hxy Hl IH]; intros i b Hi.
  - destruct i; discriminate.
  - destruct i as [|i]; simpl in *.
    + inversion Hi; subst. eauto.
    + apply IH. exact Hi.
Qed.

Section RankOrder.
Context {N : NumLib}.

Lemma nearest_train_prefix (row : list float) (k : Z) :
  exists n, nearest_train row k = firstn n (np_argsort row).
Proof.
  unfold nearest_train, slice_to. destruct (0 <=? k)%Z; eexists; reflexivity.
Qed.

Lemma nearest_train_ascending (row : list float) (k : Z) :
  argsort_ascending N -> StronglySorted (entry_le row) (nearest_train row k).
Proof.
  intros Ha. destruct (nearest_train_prefix row k) as [n ->].
  pose proof (Ha row) as Hs.
  rewrite <- (firstn_skipn n (np_argsort row)) in Hs.
  apply StronglySorted_app_inv in Hs. exact (proj1 Hs).
Qed.

Lemma selected_values_ascending (row : list float) (sel : list nat)
    (vs : list float) :
  Forall2 (fun j v => nth_error row j = Some v) sel vs ->
  StronglySorted (entry_le row) sel ->
  StronglySorted (fun a b => lt b a = false) vs.
Proof.
  induction 1 as [|j v sel vs Hjv Hrest IH]; intros Hs.
  - constructor.
  - inversion Hs as [|? ? Hs' Hj]; subst.
    constructor; [apply IH; exact Hs'|].
    rewrite Forall_forall in *. intros b Hb.
    destruct (Forall2_in_r _ _ _ _ Hrest Hb) as (j' & Hj' & Hjb).
    exact (Hj j' Hj' v b Hjv Hjb).
Qed.
End RankOrder.

(** X4: when [np.argsort] returns the indices of a row in ascending order of
    its entries and the script completes, the distances that a row reports
    under the measure of the selection (the vector distances for "vec", the
    fingerprint distances for "morgan") are the entries of the selected
    indices and do not decrease from one rank to the next, whatever the
    neighbour count. *)
Theorem selection_distances_nondecreasing (N : NumLib) (C : Chemprop N)
    (test_data train_data ab : list string) (dm save_path : string) (k : Z)
    (t : list event) :
  argsort_ascending N ->
  find_similar_preds test_data train_data ab dm save_path k = (t, Ok tt) ->
  exists L neighbors,
    locals_of test_data train_data ab dm k = Ok L /\
    find_neighbors L (List.length test_data) = Ok neighbors /\
    Permutation (written t) neighbors /\
    forall i, i < List.length test_data ->
      exists d row vs,
        nth_error neighbors i = Some d /\
        nth_error (dist_matrix L) i = Some row /\
        Forall2 (fun j v => nth_error row j = Some v) (nearest_train row k) vs /\
        (forall r v, nth_error vs r = Some v ->
                     od_find d (selection_key dm (r + 1)) = Some (VFloat v)) /\
        StronglySorted (fun a b => lt b a = false) vs.
Proof.
  intros Hasc Hrun. apply run_inv in Hrun.
  destruct Hrun as (L & neighbors & first & rest & HL & Hn & Hs & _ & Hw).
  apply sort_by_test_pred_inv in Hs. destruct Hs as (Hperm & _ & _).
  exists L, neighbors. rewrite Hw.
  split; [exact HL|]. split; [exact Hn|]. split; [exact Hperm|].
  intros i Hi.
  destruct (find_neighbors_nth _ _ _ Hn) as [_ Hnth].
  destruct (Hnth i Hi) as (d & Hd & Hof).
  apply neighbor_of_inv in Hof.
  destruct Hof as (row & vrow & mrow & smiles & preds & pred & vds & mds &
                   Hrow & Hvrow & Hmrow & _ & _ & _ & Hvds & Hmds &
                   _ & _ & _ & _ & _ & Hrank & _).
  apply locals_of_inv in HL.
  destruct HL as (_ & _ & _ & _ & Hk & _ & _ & Hdm & _ & _).
  rewrite Hk in *.
  pose proof (nearest_train_ascending row k Hasc) as Hsorted.
  destruct Hdm as [[Edm Ematrix]|[Edm Ematrix]]; subst dm;
    rewrite Ematrix in Hrow.
  - rewrite Hvrow in Hrow. inversion Hrow; subst vrow.
    exists d, row, vds.
    split; [exact Hd|]. split; [rewrite Ematrix; exact Hvrow|].
    split; [exact Hvds|]. split.
    + intros r v Hr.
      destruct (Forall2_nth_error_r _ _ _ Hvds r v Hr) as (j & Hj & Hjv).
      destruct (Hrank r j Hj) as (sm & v' & m' & _ & Hv' & _ & _ & _ & F3 & _).
      rewrite Hjv in Hv'. inversion Hv'; subst v'. exact F3.
    + eapply selected_values_ascending; eassumption.
  - rewrite Hmrow in Hrow. inversion Hrow; subst mrow.
    exists d, row, mds.
    split; [exact Hd|]. split; [rewrite Ematrix; exact Hmrow|].
    split; [exact Hmds|]. split.
    + intros r v Hr.
      destruct (Forall2_nth_error_r _ _ _ Hmds r v Hr) as (j & Hj & Hjv).
      destruct (Hrank r j Hj) as (sm & v' & m' & _ & _ & Hm' & _ & _ & _ & F4).
      rewrite Hjv in Hm'. inversion Hm'; subst m'. exact F4.
    + eapply selected_values_ascending; eassumption.
Qed.

Lemma selection_distances_nondecreasing_witness :
  exists L neighbors,
    @locals_of Zlib demo ["C"; "A"; "D"; "B"] ["B"; "C"] ["B"] "vec" 2 = Ok L /\
    find_neighbors L 4 = Ok neighbors /\
    Permutation (written (fst demo_run)) neighbors /\
    forall i, i < 4 ->
      exists d row vs,
        nth_error neighbors i = Some d /\
        nth_error (dist_matrix L) i = Some row /\
        Forall2 (fun j v => nth_error row j = Some v) (nearest_train row 2) vs /\
        (forall r v, nth_error vs r = Some v ->
                     od_find d (selection_key "vec" (r + 1))
                     = Some (VFloat v)) /\
        StronglySorted (fun a b => @lt Zlib b a = false) vs.
Proof.
  apply (selection_distances_nondecreasing Zlib demo ["C"; "A"; "D"; "B"]
           ["B"; "C"] ["B"] "vec" "out.csv" 2 (fst demo_run)).
  - exact Zlib_argsort_ascending.
  - reflexivity.
Defined.

(** ** The columns of the report *)

Section KeyOrder.
Context {V : Type}.

Lemma od_set_fresh (d : odict V) (k : string) (v : V) :
  ~ In k (od_keys d) -> od_set d k v = d ++ [(k, v)].
Proof.
  unfold od_keys. induction d as [|[k' v'] d IH]; simpl; intros H.
  - reflexivity.
  - destruct (String.eqb k k') eqn:E.
    + apply String.eqb_eq in E. exfalso. apply H. left. symmetry. exact E.
    + rewrite IH; [reflexivity|]. intros Hin. apply H. right. exact Hin.
Qed.

Lemma od_keys_set_fresh (d : odict V) (k : string) (v : V) :
  ~ In k (od_keys d) -> od_keys (od_set d k v) = od_keys d ++ [k].
Proof.
  intros H. rewrite od_set_fresh by exact H.
  unfold od_keys. rewrite map_app. reflexivity.
Qed.
End KeyOrder.

Section Columns.
Context {N : NumLib}.

Lemma four_sets_keys_order (d0 : odict value) (i : nat) (sm : string)
    (b : bool) (v m : float) :
  (forall key, In key (train_keys i) -> ~ In key (od_keys d0)) ->
  od_keys
    (od_set (od_set (od_set (od_set d0
       (key_train_smiles i) (VStr sm))
       (key_train_is_antibiotic i) (VBool b))
       (key_train_vec_dist i) (VFloat v))
       (key_train_morgan_dist i) (VFloat m))
  = od_keys d0 ++ train_keys i.
Proof.
  intros Hfresh.
  assert (H1 : ~ In (key_train_smiles i) (od_keys d0))
    by (apply Hfresh; unfold train_keys; cbn [In]; tauto).
  assert (H2 : ~ In (key_train_is_antibiotic i) (od_keys d0))
    by (apply Hfresh; unfold train_keys; cbn [In]; tauto).
  assert (H3 : ~ In (key_train_vec_dist i) (od_keys d0))
    by (apply Hfresh; unfold train_keys; cbn [In]; tauto).
  assert (H4 : ~ In (key_train_morgan_dist i) (od_keys d0))
    by (apply Hfresh; unfold train_keys; cbn [In]; tauto).
  rewrite od_keys_set_fresh.
  2:{ rewrite !od_keys_set. intros [E|[E|[E|E]]];
        [unfold_keys; discriminate E | unfold_keys; discriminate E
        | unfold_keys; discriminate E | exact (H4 E)]. }
  rewrite od_keys_set_fresh.
  2:{ rewrite !od_keys_set. intros [E|[E|E]];
        [unfold_keys; discriminate E | unfold_keys; discriminate E
        | exact (H3 E)]. }
  rewrite od_keys_set_fresh.
  2:{ rewrite !od_keys_set. intros [E|E];
        [unfold_keys; discriminate E | exact (H2 E)]. }
  rewrite od_keys_set_fresh by exact H1.
  unfold train_keys. rewrite <- !app_assoc. reflexivity.
Qed.

Lemma fold_keys_order (L : locals) (vds mds : list float) (idx : list nat) :
  forall (s : nat) (d0 d : odict value),
    foldM (add_train_fields L vds mds)
      (combine (seq s (List.length idx)) idx) d0 = Ok d ->
    (forall r key, s <= r -> In key (train_keys (r + 1)) ->
                   ~ In key (od_keys d0)) ->
    od_keys d = od_keys d0 ++ flat_map train_keys (seq (s + 1) (List.length idx)).
Proof.
  induction idx as [|j0 idx IH]; intros s d0 d;
    cbn [List.length seq combine foldM flat_map].
  - intros H _. inversion H. rewrite app_nil_r. reflexivity.
  - destruct (add_train_fields L vds mds d0 (s, j0)) as [d1|e] eqn:E;
      cbn [rbind]; [|discriminate].
    intros H Hfresh. apply add_train_fields_inv in E.
    destruct E as (sm & v & m & _ & _ & _ & Ed1).
    assert (Hk1 : od_keys d1 = od_keys d0 ++ train_keys (s + 1)).
    { rewrite Ed1. apply four_sets_keys_order.
      intros key Hkey. apply (Hfresh s key); [lia|exact Hkey]. }
    rewrite (IH (S s) d1 d H).
    + rewrite Hk1, <- app_assoc.
      replace (S s + 1) with (S (s + 1)) by lia. reflexivity.
    + intros r key Hr Hkey. rewrite Hk1. intros Hin.
      apply in_app_or in Hin. destruct Hin as [Hin|Hin].
      * apply (Hfresh r key); [lia|exact Hkey|exact Hin].
      * pose proof (train_keys_inj _ _ _ Hkey Hin). lia.
Qed.

Lemma base_keys_order (smiles : string) (b : bool) (pred x y : float) (n : Z) :
  od_keys
    (od_set (od_set (od_set (od_set (od_set []
      "test_smiles" (VStr smiles)) "in_train" (VBool b))
      "test_pred" (VFloat pred)) (key_avg_vec n) (VFloat x))
      (key_avg_morgan n) (VFloat y))
  = ["test_smiles"; "in_train"; "test_pred"; key_avg_vec n; key_avg_morgan n].
Proof.
  rewrite od_keys_set_fresh.
  - rewrite od_keys_set_fresh; [reflexivity|].
    cbn [od_set String.eqb Ascii.eqb Bool.eqb od_keys map fst]. intros Hin.
    eapply (avg_not_base n (key_avg_vec n)); [cbn [In]; tauto|exact Hin].
  - rewrite od_keys_set. intros [E|Hin].
    + symmetry in E. exact (avg_vec_not_avg_morgan n E).
    + cbn [od_set String.eqb Ascii.eqb Bool.eqb od_keys map fst] in Hin.
      eapply (avg_not_base n (key_avg_morgan n)); [cbn [In]; tauto|exact Hin].
Qed.

Lemma neighbor_of_keys (L : locals) (i : nat) (d : odict value) :
  neighbor_of L i = Ok d ->
  exists row,
    nth_error (dist_matrix L) i = Some row /\
    od_keys d =
    fieldnames_of (num_neighbors L)
      (List.length (nearest_train row (num_neighbors L))).
Proof.
  unfold neighbor_of, enumerate.
  destruct (index (dist_matrix L) i) as [row|] eqn:Erow; [|discriminate].
  cbn [rbind].
  destruct (index (test_train_vec_dist L) i) as [vrow|]; [|discriminate].
  cbn [rbind].
  destruct (take vrow _) as [vds|]; [|discriminate]. cbn [rbind].
  destruct (index (test_train_morgan_dist L) i) as [mrow|]; [|discriminate].
  cbn [rbind].
  destruct (take mrow _) as [mds|]; [|discriminate]. cbn [rbind].
  destruct (index (test_smiles L) i) as [smiles|]; [|discriminate].
  cbn [rbind].
  destruct (index (test_preds L) i) as [preds|]; [|discriminate].
  cbn [rbind].
  destruct (index preds 0) as [pred|]; [|discriminate]. cbn [rbind].
  intros H. apply index_ok in Erow. exists row. split; [exact Erow|].
  apply fold_keys_order in H.
  - rewrite H, base_keys_order. reflexivity.
  - intros r key _ Hkey. rewrite base_keys_order. intros Hin.
    cbn [In] in Hin.
    destruct Hin as [E|[E|[E|Hin]]].
    + eapply (base_not_train_key (r + 1) key); [cbn [In]; tauto|exact Hkey].
    + eapply (base_not_train_key (r + 1) key); [cbn [In]; tauto|exact Hkey].
    + eapply (base_not_train_key (r + 1) key); [cbn [In]; tauto|exact Hkey].
    + eapply (avg_not_train_key (r + 1) (num_neighbors L) key);
        [cbn [In]; tauto|exact Hkey].
Qed.

Lemma flat_train_keys_NoDup (m s : nat) :
  NoDup (flat_map train_keys (seq s m)).
Proof.
  revert s. induction m as [|m IH]; intros s; cbn [seq flat_map].
  - constructor.
  - apply NoDup_app; [apply train_keys_NoDup | apply IH|].
    intros key Hk Hin. apply in_flat_map in Hin.
    destruct Hin as (r & Hr & Hkr). apply in_seq in Hr.
    pose proof (train_keys_inj _ _ _ Hk Hkr). lia.
Qed.

Lemma fieldnames_of_NoDup (k : Z) (m : nat) : NoDup (fieldnames_of k m).
Proof.
  unfold fieldnames_of. apply NoDup_app.
  - assert (Hb : forall key, In key [key_avg_vec k; key_avg_morgan k] ->
                  ~ In key ["test_smiles"; "in_train"; "test_pred"])
      by apply avg_not_base.
    repeat constructor; cbn [In]; intros H;
      repeat (destruct H as [H|H]); try contradiction;
      try discriminate H;
      try exact (avg_vec_not_avg_morgan k (eq_sym H));
      first [ apply (Hb (key_avg_vec k)); cbn [In]; rewrite H; tauto
            | apply (Hb (key_avg_morgan k)); cbn [In]; rewrite H; tauto ].
  - apply flat_train_keys_NoDup.
  - intros key Hk Hin. apply in_flat_map in Hin.
    destruct Hin as (r & _ & Hkr). cbn [In] in Hk.
    destruct Hk as [E|[E|[E|Hk]]].
    + eapply (base_not_train_key r key); [cbn [In]; tauto|exact Hkr].
    + eapply (base_not_train_key r key); [cbn [In]; tauto|exact Hkr].
    + eapply (base_not_train_key r key); [cbn [In]; tauto|exact Hkr].
    + eapply (avg_not_train_key r k key); [cbn [In]; tauto|exact Hkr].
Qed.

Lemma flat_train_keys_length (m s : nat) :
  List.length (flat_map train_keys (seq s m)) = 4 * m.
Proof.
  revert s. induction m as [|m IH]; intros s; cbn [seq flat_map].
  - reflexivity.
  - rewrite length_app, (IH (S s)). cbn [train_keys List.length]. lia.
Qed.

Lemma fieldnames_of_length (k : Z) (m : nat) :
  List.length (fieldnames_of k m) = 5 + 4 * m.
Proof.
  unfold fieldnames_of. rewrite length_app, flat_train_keys_length.
  reflexivity.
Qed.
End Columns.

(** X2: when [np.argsort] returns a permutation of the indices of its row
    and the script completes, the header it writes is the five fields of the
    test molecule (the two averages named after the neighbour count as it was
    given) followed by the four fields of rank 1, rank 2, ... for as many
    ranks as the slice [[:k]] keeps of the training set; every row has these
    keys in this order, and no two of them are equal. *)
Theorem report_columns (N : NumLib) (C : Chemprop N)
    (test_data train_data ab : list string) (dm save_path : string) (k : Z)
    (t : list event) :
  argsort_permutes N ->
  find_similar_preds test_data train_data ab dm save_path k = (t, Ok tt) ->
  In (EWriteHeader (fieldnames_of k (kept k (List.length train_data)))) t /\
  (forall d, In d (written t) ->
             od_keys d = fieldnames_of k (kept k (List.length train_data))) /\
  NoDup (fieldnames_of k (kept k (List.length train_data))) /\
  List.length (fieldnames_of k (kept k (List.length train_data)))
  = 5 + 4 * kept k (List.length train_data).
Proof.
  intros Hperm Hrun. apply run_inv in Hrun.
  destruct Hrun as (L & neighbors & first & rest & HL & Hn & Hs & Ht & Hw).
  apply sort_by_test_pred_inv in Hs. destruct Hs as (Hp & _ & _).
  destruct (dist_matrix_rows N C _ _ _ _ _ _ HL) as [_ Hrows].
  apply locals_of_inv in HL. destruct HL as (_ & _ & _ & _ & Hk & _).
  assert (Hrow : forall d, In d (first :: rest) ->
            od_keys d = fieldnames_of k (kept k (List.length train_data))).
  { intros d Hd. apply (Permutation_in _ Hp) in Hd.
    unfold find_neighbors in Hn. apply mapM_ok in Hn.
    destruct (Forall2_in_r _ _ _ _ Hn Hd) as (i & _ & Hi).
    apply neighbor_of_keys in Hi. destruct Hi as (row & Hr & Hkeys).
    rewrite Hkeys, Hk, nearest_length by exact Hperm.
    rewrite (Hrows _ _ Hr). reflexivity. }
  split; [|split; [|split]].
  - rewrite Ht, <- (Hrow first (or_introl eq_refl)).
    apply in_or_app. right. cbn [app In]. tauto.
  - rewrite Hw. exact Hrow.
  - apply fieldnames_of_NoDup.
  - apply fieldnames_of_length.
Qed.

Lemma report_columns_witness :
  In (EWriteHeader (fieldnames_of 5 (kept 5 2))) (fst
       (@find_similar_preds Zlib demo ["A"] ["B"; "C"] ["B"] "vec" "out.csv" 5))
  /\
  (forall d,
     In d (written (fst (@find_similar_preds Zlib demo ["A"] ["B"; "C"] ["B"]
                           "vec" "out.csv" 5))) ->
     od_keys d = fieldnames_of 5 (kept 5 2)) /\
  NoDup (fieldnames_of 5 (kept 5 2)) /\
  List.length (fieldnames_of 5 (kept 5 2)) = 5 + 4 * kept 5 2.
Proof.
  apply (report_columns Zlib demo ["A"] ["B"; "C"] ["B"] "vec" "out.csv" 5
           (fst (@find_similar_preds Zlib demo ["A"] ["B"; "C"] ["B"] "vec"
                   "out.csv" 5))
           Zlib_argsort_permutes).
  reflexivity.
Defined.

Example report_columns_more_than_training_set :
  fieldnames_of 5 (kept 5 2) =
  ["test_smiles"; "in_train"; "test_pred"; "train_5_avg_vec_cosine_dist";
   "train_5_avg_morgan_jaccard_dist"; "train_smiles_1";
   "train_is_antibiotic_1"; "train_vec_cosine_dist_1";
   "train_morgan_jaccard_dist_1"; "train_smiles_2"; "train_is_antibiotic_2";
   "train_vec_cosine_dist_2"; "train_morgan_jaccard_dist_2"].
Proof. reflexivity. Qed.

(** ** The molecules of the report *)

Lemma map_nth_error_seq {A B : Type} (g : A -> B) (l : list A) (s : nat) :
  map (fun i => option_map g (nth_error l (i - s))) (seq s (List.length l))
  = map (fun a => Some (g a)) l.
Proof.
  revert s. induction l as [|a l IH]; intros s; cbn [List.length seq map].
  - reflexivity.
  - rewrite Nat.sub_diag. cbn [nth_error option_map]. f_equal.
    rewrite <- (IH (S s)). apply map_ext_in. intros i Hi.
    apply in_seq in Hi. replace (i - s) with (S (i - S s)) by lia.
    reflexivity.
Qed.

Lemma Forall2_map_eq {A B X : Type} (R : A -> B -> Prop) (f : B -> X)
    (g : A -> X) (l : list A) (l' : list B) :
  Forall2 R l l' -> (forall a b, R a b -> f b = g a) -> map f l' = map g l.
Proof.
  induction 1 as [|a b l l' Hab Hl IH]; intros H; simpl; [reflexivity|].
  rewrite (H a b Hab), (IH H). reflexivity.
Qed.

(** X9: when the script completes, the [test_smiles] fields of the rows it
    writes are the SMILES strings of the test set, each as many times as it
    is in the test set, in some order: no test molecule is dropped or
    repeated. *)
Theorem report_is_the_test_set (N : NumLib) (C : Chemprop N)
    (test_data train_data ab : list string) (dm save_path : string) (k : Z)
    (t : list event) :
  find_similar_preds test_data train_data ab dm save_path k = (t, Ok tt) ->
  Permutation (map (fun d => od_find d "test_smiles") (written t))
    (map (fun s => Some (VStr s)) test_data).
Proof.
  intros Hrun. apply run_inv in Hrun.
  destruct Hrun as (L & neighbors & first & rest & HL & Hn & Hs & _ & Hw).
  apply sort_by_test_pred_inv in Hs. destruct Hs as (Hp & _ & _).
  rewrite Hw. eapply Permutation_trans; [apply Permutation_map; exact Hp|].
  apply locals_of_inv in HL. destruct HL as (Hts & _).
  unfold find_neighbors in Hn. apply mapM_ok in Hn.
  rewrite (Forall2_map_eq _ (fun d => od_find d "test_smiles")
             (fun i => option_map VStr (nth_error test_data (i - 0))) _ _ Hn).
  - rewrite map_nth_error_seq. apply Permutation_refl.
  - intros i d Hi. apply neighbor_of_inv in Hi.
    destruct Hi as (? & ? & ? & smiles & ? & ? & ? & ? &
                    _ & _ & _ & Hsm & _ & _ & _ & _ & F1 & _).
    rewrite Hts in Hsm. rewrite Nat.sub_0_r, Hsm. exact F1.
Qed.

Lemma report_is_the_test_set_witness :
  Permutation
    (map (fun d => od_find d "test_smiles") (written (fst demo_run)))
    (map (fun s => Some (@VStr Zlib s)) ["C"; "A"; "D"; "B"]).
Proof.
  apply (report_is_the_test_set Zlib demo ["C"; "A"; "D"; "B"] ["B"; "C"]
           ["B"] "vec" "out.csv" 2 (fst demo_run)).
  reflexivity.
Defined.

(** * The order of the report *)



Section ReportOrder.
Context {N : NumLib}.



End ReportOrder.






(** The order in which [fdemo_run] writes the four test molecules: the two
    with the prediction 0.75 first, then the two with the prediction 0.5,
    each pair in the order of the test set. *)
Example fdemo_run_report :
  snd fdemo_run = Ok tt /\
  map (fun d => od_find d "test_smiles") (written (fst fdemo_run)) =
    [Some (@VStr Flib "A"); Some (@VStr Flib "D");
     Some (@VStr Flib "C"); Some (@VStr Flib "B")] /\
  map pred_field (written (fst fdemo_run)) =
    [Some Binary64.three_quarters; Some Binary64.three_quarters;
     Some Binary64.half; Some Binary64.half].
Proof. repeat split; reflexivity. Qed.

(** The [<] of IEEE 754 is not a strict weak order on all the numbers: NaN is
    neither smaller nor greater than 0 and than 1. *)
Example binary64_lt_not_strict_weak_order :
  ~ strict_weak_order (@lt Flib).
Proof.
  intros [_ Htrans].
  specialize (Htrans PrimFloat.zero PrimFloat.nan PrimFloat.one
                eq_refl eq_refl).
  vm_compute in Htrans. discriminate.
Qed.

(** With a prediction that is NaN the report need not be in descending
    order: [fdemo_nan_run] completes and writes the molecule with the
    prediction 0.5 before the molecule with the prediction 0.75. *)
Example nan_prediction_report :
  snd fdemo_nan_run = Ok tt /\
  map (fun d => od_find d "test_smiles") (written (fst fdemo_nan_run)) =
    [Some (@VStr Flib "B"); Some (@VStr Flib "E"); Some (@VStr Flib "A")] /\
  (exists d1 d2 s1 s2,
     nth_error (written (fst fdemo_nan_run)) 0 = Some d1 /\
     nth_error (written (fst fdemo_nan_run)) 2 = Some d2 /\
     pred_field d1 = Some s1 /\ pred_field d2 = Some s2 /\
     @lt Flib s1 s2 = true).
Proof.
  split; [reflexivity|].
  split; [reflexivity|].
  eexists _, _, Binary64.half, Binary64.three_quarters.
  repeat split; reflexivity.
Qed.
